(** * The dashboard chat panel: data harvesting and conversation control

    A shallow embedding of [SimplePanel] (the panel component with its two
    helper functions [convertGrafanaDataToJson] and [convertDashboardData])
    and the properties of its specification.

    The component is written in TypeScript against values typed [any]; the
    embedding therefore works over a small universe of JavaScript values and
    spells out the dynamic checks the source performs (truthiness,
    [Array.isArray], optional chaining, the [??] and [||] operators, the
    [TypeError] of a property read on [null] or [undefined]).

    Modelling boundaries, stated once:
    - numbers are integers ([NaN], infinities and fractions do not occur);
    - a string is a [string] whose [length] is its number of characters;
    - a value is plain data: an object is the list of its own properties in
      insertion order, extensible and writable. Of the names this program
      reads, one is inherited from a built-in prototype, [values] on an
      array; a read of it yields a [Method], not a value. The records the
      normalizer builds carry their prototype, because a write to the key
      [__proto__] goes to the setter they inherit as long as they inherit
      it;
    - a promise of a host service resolves, rejects or is never settled;
    - what the engine and the host services do is a parameter ([Engine],
      [World]); the general theorems hold for all of them, the examples
      fix a sample engine and sample worlds. *)

From Stdlib Require Import List String ZArith Bool Lia Ascii DecimalString.
Import ListNotations.

Local Open Scope string_scope.
Local Open Scope list_scope.

Local Set Warnings "-register-all".

(** ** JavaScript values *)

Inductive JsVal : Type :=
| JUndefined
| JNull
| JBool (b : bool)
| JNum (n : Z)
| JStr (s : string)
| JArr (items : list JsVal)
| JObj (props : list (string * JsVal)).

(** What a [throw] or a rejected promise carries. *)
Inductive JsError : Type :=
| TypeError
| Raised (reason : JsVal).

(** A synchronous computation either returns or throws. *)
Inductive Outcome (A : Type) : Type :=
| Returned (a : A)
| Threw (e : JsError).

Arguments Returned {A} a.
Arguments Threw {A} e.

Definition bind {A B : Type} (m : Outcome A) (k : A -> Outcome B) : Outcome B :=
  match m with
  | Returned a => k a
  | Threw e => Threw e
  end.

Notation "x <- m ;; k" := (bind m (fun x => k))
  (at level 61, m at next level, right associativity).

(** [for (const x of xs) { acc = body(acc, x) }], stopping at the first throw. *)
Fixpoint for_of {A B : Type} (body : B -> A -> Outcome B) (xs : list A) (acc : B)
  : Outcome B :=
  match xs with
  | [] => Returned acc
  | x :: rest => acc' <- body acc x ;; for_of body rest acc'
  end.

Definition is_nullish (v : JsVal) : bool :=
  match v with
  | JUndefined | JNull => true
  | _ => false
  end.

Definition truthy (v : JsVal) : bool :=
  match v with
  | JUndefined | JNull => false
  | JBool b => b
  | JNum n => negb (n =? 0)%Z
  | JStr s => negb (s =? "")
  | JArr _ | JObj _ => true
  end.

Definition isArray (v : JsVal) : bool :=
  match v with
  | JArr _ => true
  | _ => false
  end.

(** [a ?? b] *)
Definition nullish_or (a b : JsVal) : JsVal :=
  if is_nullish a then b else a.

(** [a || b] *)
Definition truthy_or (a b : JsVal) : JsVal :=
  if truthy a then a else b.

Fixpoint own_prop (props : list (string * JsVal)) (key : string) : option JsVal :=
  match props with
  | [] => None
  | (k, v) :: rest => if k =? key then Some v else own_prop rest key
  end.

(** The property key of an array index, and back (canonical numerals only). *)
Definition index_key (i : nat) : string :=
  NilEmpty.string_of_uint (Nat.to_uint i).

Definition key_index (key : string) : option nat :=
  match NilEmpty.uint_of_string key with
  | Some u => let i := Nat.of_uint u in
              if index_key i =? key then Some i else None
  | None => None
  end.

Definition char_at (s : string) (i : nat) : JsVal :=
  match String.get i s with
  | Some c => JStr (String c EmptyString)
  | None => JUndefined
  end.

(** Reading property [key] of a value that is neither [null] nor [undefined]. *)
Definition get_member (v : JsVal) (key : string) : JsVal :=
  match v with
  | JObj props =>
      match own_prop props key with
      | Some x => x
      | None => JUndefined
      end
  | JArr items =>
      if key =? "length" then JNum (Z.of_nat (List.length items))
      else match key_index key with
           | Some i => nth i items JUndefined
           | None => JUndefined
           end
  | JStr s =>
      if key =? "length" then JNum (Z.of_nat (String.length s))
      else match key_index key with
           | Some i => char_at s i
           | None => JUndefined
           end
  | _ => JUndefined
  end.

(** Reading element [i] of such a value. *)
Definition get_index (v : JsVal) (i : nat) : JsVal :=
  match v with
  | JArr items => nth i items JUndefined
  | JStr s => char_at s i
  | JObj props =>
      match own_prop props (index_key i) with
      | Some x => x
      | None => JUndefined
      end
  | _ => JUndefined
  end.

(** [v.key]: a [TypeError] on [null] and [undefined]. *)
Definition member (v : JsVal) (key : string) : Outcome JsVal :=
  if is_nullish v then Threw TypeError else Returned (get_member v key).

(** [v[i]] *)
Definition index (v : JsVal) (i : nat) : Outcome JsVal :=
  if is_nullish v then Threw TypeError else Returned (get_index v i).

(** [v?.key] and [v?.[i]] *)
Definition opt_member (v : JsVal) (key : string) : JsVal :=
  if is_nullish v then JUndefined else get_member v key.

Definition opt_index (v : JsVal) (i : nat) : JsVal :=
  if is_nullish v then JUndefined else get_index v i.

(** What a property read yields: a data value, or a built-in method found on
    a prototype. *)
Inductive Property : Type :=
| Value (v : JsVal)
| Method (name : string) (arity : nat).

(** Reading [key] where an inherited method can be met: [[].values] is
    [Array.prototype.values], a function of length 0. *)
Definition read (v : JsVal) (key : string) : Property :=
  match v with
  | JArr _ => if key =? "values" then Method "values" 0 else Value (get_member v key)
  | _ => Value (get_member v key)
  end.

(** [v.key] and [v?.key] as a property. *)
Definition member_read (v : JsVal) (key : string) : Outcome Property :=
  if is_nullish v then Threw TypeError else Returned (read v key).

Definition opt_read (v : JsVal) (key : string) : Property :=
  if is_nullish v then Value JUndefined else read v key.

(** [p?.length] and [p[i]] of what was read: a function has its arity for
    length and no indexed properties. *)
Definition length_of (p : Property) : JsVal :=
  match p with
  | Value v => opt_member v "length"
  | Method _ arity => JNum (Z.of_nat arity)
  end.

Definition at_index (p : Property) (i : nat) : Outcome JsVal :=
  match p with
  | Value v => index v i
  | Method _ _ => Returned JUndefined
  end.

Fixpoint replace_prop (props : list (string * JsVal)) (key : string) (v : JsVal)
  : list (string * JsVal) :=
  match props with
  | [] => []
  | (k, x) :: rest =>
      if k =? key then (k, v) :: rest else (k, x) :: replace_prop rest key v
  end.

(** Writing an own data property: an existing key keeps its place, a new key
    goes last. *)
Definition put_own (props : list (string * JsVal)) (key : string) (v : JsVal)
  : list (string * JsVal) :=
  match own_prop props key with
  | Some _ => replace_prop props key v
  | None => props ++ [(key, v)]
  end.

(** What an object created by [{}] inherits from: [Object.prototype] at
    first, nothing after [__proto__] was set to [null], a data value after it
    was set to one. *)
Inductive Prototype : Type :=
| ObjectPrototype
| NoPrototype
| ValuePrototype (v : JsVal).

Record PlainObject : Type := {
  own : list (string * JsVal);
  proto : Prototype
}.

Definition empty_object : PlainObject :=
  {| own := []; proto := ObjectPrototype |}.

(** Does a write to [__proto__] reach the setter of [Object.prototype]? Not
    when the object has an own property of that name, nor when it inherits
    from nothing, nor when the value it inherits from has such an own
    property, which then shadows the setter. *)
Definition reaches_setter (o : PlainObject) : bool :=
  match own_prop (own o) "__proto__" with
  | Some _ => false
  | None =>
      match proto o with
      | ObjectPrototype => true
      | NoPrototype => false
      | ValuePrototype (JObj props) =>
          match own_prop props "__proto__" with
          | Some _ => false
          | None => true
          end
      | ValuePrototype _ => true
      end
  end.

(** The setter: an object or [null] becomes the prototype, anything else is
    ignored. *)
Definition set_prototype (o : PlainObject) (v : JsVal) : PlainObject :=
  match v with
  | JNull => {| own := own o; proto := NoPrototype |}
  | JObj _ | JArr _ => {| own := own o; proto := ValuePrototype v |}
  | _ => o
  end.

(** [obj[key] = v] on an object created by [{}]. *)
Definition set_prop (o : PlainObject) (key : string) (v : JsVal) : PlainObject :=
  if (key =? "__proto__") && reaches_setter o
  then set_prototype o v
  else {| own := put_own (own o) key v; proto := proto o |}.

(** ** The engine

    Built-ins the program calls and coercions it triggers without spelling
    them out. [JSON_parse] is [None] on a syntax error; the second argument
    of [JSON_stringify] is the indentation. [ToPropertyKey] is consulted for
    a computed key that is not a string; [IterationsBelow v] is the number of
    [i = 0, 1, ...] for which the engine finds [i < v] when [v] is not a
    number. Either may raise. *)

Record Engine : Type := {
  JSON_parse : string -> option JsVal;
  JSON_stringify : JsVal -> nat -> string;
  ToPropertyKey : JsVal -> Outcome string;
  IterationsBelow : JsVal -> Outcome nat
}.

Definition property_key (E : Engine) (v : JsVal) : Outcome string :=
  match v with
  | JStr s => Returned s
  | _ => ToPropertyKey E v
  end.

Definition iterations_below (E : Engine) (v : JsVal) : Outcome nat :=
  match v with
  | JNum n => Returned (Z.to_nat n)
  | _ => IterationsBelow E v
  end.

(** ** Row Normalizer: [convertGrafanaDataToJson] *)

Section RowNormalizer.

Variable E : Engine.

(** [row[field.name] = field.values[i]] *)
Definition assign_cell (i : nat) (row : PlainObject) (field : JsVal)
  : Outcome PlainObject :=
  name <- member field "name" ;;
  values <- member_read field "values" ;;
  cell <- at_index values i ;;
  key <- property_key E name ;;
  Returned (set_prop row key cell).

(** The body of the row loop up to [result.push(row)]. *)
Definition build_row (fields : list JsVal) (i : nat) : Outcome JsVal :=
  row <- for_of (assign_cell i) fields empty_object ;;
  Returned (JObj (own row)).

(** [for (let i = start; i < start + todo; i++) { ...; result.push(row) }] *)
Fixpoint row_loop (fields : list JsVal) (todo start : nat) (result : list JsVal)
  : Outcome (list JsVal) :=
  match todo with
  | O => Returned result
  | S todo' =>
      row <- build_row fields start ;;
      row_loop fields todo' (S start) (result ++ [row])
  end.

(** [fields[0]?.values?.length || 0] *)
Definition rowCount (fields : JsVal) : JsVal :=
  truthy_or
    (length_of (opt_read (get_index fields 0) "values"))
    (JNum 0).

Definition array_items (v : JsVal) : list JsVal :=
  match v with
  | JArr items => items
  | _ => []
  end.

Definition convertGrafanaDataToJson (data : JsVal) : Outcome (list JsVal) :=
  if negb (truthy data) || negb (isArray data)
     || (List.length (array_items data) =? 0)%nat
  then Returned []
  else
    let fields := opt_member (get_index data 0) "fields" in
    if negb (truthy fields) || negb (isArray fields)
    then Returned []
    else
      count <- iterations_below E (rowCount fields) ;;
      row_loop (array_items fields) count 0 [].

End RowNormalizer.

(** ** Dashboard Query Extractor: [convertDashboardData] *)

(** The object literal pushed for each target (interface [Target]). *)
Record Target : Type := {
  datasource : JsVal;
  rawSql : JsVal;
  refId : JsVal;
  format : JsVal;
  title : JsVal;
  description : JsVal
}.

(** The descriptor of a target that is an object, under a panel that is one. *)
Definition descriptor (panel target : JsVal) : Target := {|
  datasource := nullish_or (get_member target "datasource") (JStr "Unknown");
  rawSql := nullish_or (get_member target "rawSql") (JStr "");
  refId := nullish_or (get_member target "refId") (JStr "");
  format := nullish_or (get_member target "format") (JStr "");
  title := nullish_or (get_member panel "title") (JStr "");
  description := nullish_or (get_member panel "description") (JStr "")
|}.

(** [response.push({ datasource: target.datasource ?? "Unknown", ... })] *)
Definition push_target (panel : JsVal) (response : list Target) (target : JsVal)
  : Outcome (list Target) :=
  ds <- member target "datasource" ;;
  sql <- member target "rawSql" ;;
  ref <- member target "refId" ;;
  fmt <- member target "format" ;;
  ttl <- member panel "title" ;;
  dsc <- member panel "description" ;;
  Returned (response ++ [ {|
    datasource := nullish_or ds (JStr "Unknown");
    rawSql := nullish_or sql (JStr "");
    refId := nullish_or ref (JStr "");
    format := nullish_or fmt (JStr "");
    title := nullish_or ttl (JStr "");
    description := nullish_or dsc (JStr "")
  |} ]).

(** The body of [for (const panel of panels)]. *)
Definition visit_panel (response : list Target) (panel : JsVal)
  : Outcome (list Target) :=
  targets <- member panel "targets" ;;
  if negb (truthy targets) || negb (isArray targets)
  then Returned response
  else for_of (push_target panel) (array_items targets) response.

Definition convertDashboardData (E : Engine) (panels : JsVal)
  : Outcome (list Target) :=
  let parsed :=
    match panels with
    | JStr text => JSON_parse E text
    | _ => Some panels
    end in
  match parsed with
  | None => Returned []
  | Some panels' =>
      if negb (isArray panels') then Returned []
      else for_of visit_panel (array_items panels') []
  end.

(** ** Promises *)

(** What a host service answers: its promise resolves, rejects, or is never
    settled (the program sets no timeout). *)
Inductive Reply (A : Type) : Type :=
| Resolves (a : A)
| Rejects (e : JsError)
| Silent.

Arguments Resolves {A} a.
Arguments Rejects {A} e.
Arguments Silent {A}.

(** The fate of a promise the program creates; [Pending] is a promise that
    is never settled. *)
Inductive Settled (A : Type) : Type :=
| Resolved (a : A)
| Rejected (e : JsError)
| Pending.

Arguments Resolved {A} a.
Arguments Rejected {A} e.
Arguments Pending {A}.

Definition await {A : Type} (r : Reply A) : Settled A :=
  match r with
  | Resolves a => Resolved a
  | Rejects e => Rejected e
  | Silent => Pending
  end.

(** A synchronous stretch of an [async] function: a throw rejects. *)
Definition run {A : Type} (o : Outcome A) : Settled A :=
  match o with
  | Returned a => Resolved a
  | Threw e => Rejected e
  end.

Definition then_ {A B : Type} (m : Settled A) (k : A -> Settled B) : Settled B :=
  match m with
  | Resolved a => k a
  | Rejected e => Rejected e
  | Pending => Pending
  end.

Notation "x <~ m ;; k" := (then_ m (fun x => k))
  (at level 61, m at next level, right associativity).

(** [try { body } catch (err) { handler }] around awaited code. *)
Definition try_catch {A : Type} (body : Settled A) (handler : JsError -> Settled A)
  : Settled A :=
  match body with
  | Rejected e => handler e
  | other => other
  end.

Fixpoint first_rejection {A : Type} (ps : list (Settled A)) : option JsError :=
  match ps with
  | [] => None
  | Rejected e :: _ => Some e
  | _ :: rest => first_rejection rest
  end.

Fixpoint all_resolved {A : Type} (ps : list (Settled A)) : option (list A) :=
  match ps with
  | [] => Some []
  | Resolved a :: rest => option_map (cons a) (all_resolved rest)
  | _ :: _ => None
  end.

(** [Promise.all]: rejected as soon as one input is (the embedding reports the
    first rejection in list order; which one the engine reports depends on
    timing), resolved with all values in input order once every input is. *)
Definition Promise_all {A : Type} (ps : list (Settled A)) : Settled (list A) :=
  match first_rejection ps with
  | Some e => Rejected e
  | None =>
      match all_resolved ps with
      | Some values => Resolved values
      | None => Pending
      end
  end.

(** ** Host services *)

Module Query.

Record target : Type := {
  refId : JsVal;
  rawSql : JsVal;
  format : JsVal
}.

(** [range] holds the two instants in milliseconds. *)
Record request : Type := {
  targets : list target;
  range_from : Z;
  range_to : Z;
  intervalMs : Z;
  maxDataPoints : Z;
  scopedVars : list (string * JsVal);
  timezone : string
}.

End Query.

(** The first signal of a response stream: a batch or an error. *)
Inductive Signal : Type :=
| Emits (response : JsVal)
| Errors (err : JsError).

(** What [datasource.query(request)] does: it throws (or its awaited result
    rejects), or it hands back a stream. *)
Inductive QueryOutcome : Type :=
| QueryThrows (e : JsError)
| Stream (first : Signal).

Record DataSource : Type := {
  query : Query.request -> QueryOutcome
}.

Record HttpRequest : Type := {
  url : string;
  method : string;
  headers : list (string * string);
  body : string
}.

Record HttpResponse : Type := {
  json : Reply JsVal
}.

(** The panel's surroundings. [clock n] is the pair of readings [Date.now()]
    and [new Date()] taken by the [n]-th executor run of a submit. *)
Record World : Type := {
  dashboardUID : option string;
  backendGet : string -> Reply JsVal;
  dataSourceGet : JsVal -> Reply DataSource;
  clock : nat -> Z * Z;
  fetch : HttpRequest -> Reply HttpResponse
}.

(** Panel options ([module.ts]). *)
Record Options : Type := {
  groqApiKey : string;
  initalChatMessage : string;
  llmUsed : string
}.

(** The two pieces of component state. *)
Record State : Type := {
  inputValue : string;
  chat : list JsVal
}.

(** ** The component: [SimplePanel] *)

Section SimplePanel.

Variable E : Engine.
Variable W : World.
Variable options : Options.

(** *** [fetchDashboard] *)

Definition fetchDashboard_try : Settled (list Target) :=
  match dashboardUID W with
  | None => Resolved []
  | Some uid =>
      if negb (truthy (JStr uid)) then Resolved []
      else
        dashboardData <~ await (backendGet W ("/api/dashboards/uid/" ++ uid)%string) ;;
        convertedData <~ run (dashboard <- member dashboardData "dashboard" ;;
                              panels <- member dashboard "panels" ;;
                              convertDashboardData E panels) ;;
        Resolved convertedData
  end.

Definition fetchDashboard : Settled (list Target) :=
  try_catch fetchDashboard_try (fun _ => Resolved []).

(** *** Query Executor: [queryDataSource] *)

(** The argument of [datasource.query]; [readings] are the two clock reads. *)
Definition query_request (readings : Z * Z) (target : Target) : Query.request := {|
  Query.targets := [ {|
    Query.refId := nullish_or (refId target) (JStr "A");
    Query.rawSql := nullish_or (rawSql target) (JStr "");
    Query.format := nullish_or (format target) (JStr "table")
  |} ];
  Query.range_from := (fst readings - 3600 * 1000)%Z;
  Query.range_to := snd readings;
  Query.intervalMs := 60000%Z;
  Query.maxDataPoints := 500%Z;
  Query.scopedVars := [];
  Query.timezone := "browser"
|}.

(** The promise built around [response$.subscribe]. Its [next] callback
    normalizes [response.data] and resolves; an exception raised inside that
    callback is reported by the stream library out of band, so the promise
    stays unsettled. Its [error] callback rejects. *)
Definition first_batch (first : Signal) : Settled JsVal :=
  match first with
  | Emits response =>
      match (data <- member response "data" ;; convertGrafanaDataToJson E data) with
      | Returned result => Resolved (JArr result)
      | Threw _ => Pending
      end
  | Errors err => Rejected err
  end.

(** One run of the executor: the requests it issued and the fate of the
    promise it returned. *)
Record QueryRun : Type := {
  issued : list Query.request;
  outcome : Settled JsVal
}.

(** The [try] block ends at [return new Promise(...)]: what that promise
    does later is adopted by the caller and never reaches the [catch]. *)
Definition queryDataSource (n : nat) (target : Target) : QueryRun :=
  if negb (truthy (datasource target))
  then {| issued := []; outcome := Resolved JUndefined |}
  else
    match dataSourceGet W (datasource target) with
    | Rejects _ => {| issued := []; outcome := Resolved JNull |}
    | Silent => {| issued := []; outcome := Pending |}
    | Resolves ds =>
        let request := query_request (clock W n) target in
        {| issued := [request];
           outcome :=
             match query ds request with
             | QueryThrows _ => Resolved JNull
             | Stream first => first_batch first
             end |}
    end.

(** *** Context Assembler: the first branch of [submitQuestion] *)

(** [{ title: target.title, description: target.description, result }] *)
Definition panel_entry (target : Target) (result : JsVal) : JsVal :=
  JObj [ ("title", title target);
         ("description", description target);
         ("result", result) ].

(** [dashboardData.filter((target) => target.rawSql)] *)
Definition queryable (dashboardData : list Target) : list Target :=
  filter (fun target => truthy (rawSql target)) dashboardData.

(** The [async] callback given to [map], for the target at position [n]. *)
Definition panel_run (n : nat) (target : Target) : Settled JsVal :=
  result <~ outcome (queryDataSource n target) ;;
  Resolved (panel_entry target result).

Fixpoint map_indexed {A B : Type} (f : nat -> A -> B) (n : nat) (xs : list A)
  : list B :=
  match xs with
  | [] => []
  | x :: rest => f n x :: map_indexed f (S n) rest
  end.

Definition newPanelData (dashboardData : list Target) : Settled (list JsVal) :=
  Promise_all (map_indexed panel_run 0 (queryable dashboardData)).

(** Every request the executor runs of one assembly issue. *)
Definition issued_queries (dashboardData : list Target) : list Query.request :=
  List.concat (map_indexed (fun n target => issued (queryDataSource n target)) 0
            (queryable dashboardData)).

(** *** Conversation Controller: [submitQuestion] and [fetchGroqData] *)

Definition message (role content : string) : JsVal :=
  JObj [ ("role", JStr role); ("content", JStr content) ].

Definition context_text (panelData : list JsVal) : string :=
  (" This is the data on the dashboard: "
     ++ JSON_stringify E (JArr panelData) 2 ++ ".")%string.

Definition system_message (panelData : list JsVal) : JsVal :=
  message "system" (initalChatMessage options ++ context_text panelData)%string.

Definition user_message (input : string) : JsVal :=
  message "user" input.

(** What a call of the submit handler comes to. Only [Dispatched messages]
    touches the component state: it stands for [setChat(messages)],
    [fetchGroqData(messages)] and [setInputValue('')], in this order. *)
Inductive Submit : Type :=
| GuardReturn
| Dispatched (messages : list JsVal)
| Failed (e : JsError)
| Stalled.

Definition target_object (t : Target) : JsVal :=
  JObj [ ("datasource", datasource t); ("rawSql", rawSql t);
         ("refId", refId t); ("format", format t);
         ("title", title t); ("description", description t) ].

(** [seen] is the state captured by the handler's closure. *)
Definition submitQuestion (seen : State) : Submit :=
  match fetchDashboard with
  | Rejected e => Failed e
  | Pending => Stalled
  | Resolved dashboardData =>
      if negb (truthy (JArr (map target_object dashboardData))) then GuardReturn
      else if (List.length (chat seen) =? 0)%nat then
        match newPanelData dashboardData with
        | Resolved panelData =>
            Dispatched [ system_message panelData; user_message (inputValue seen) ]
        | Rejected e => Failed e
        | Pending => Stalled
        end
      else Dispatched (chat seen ++ [ user_message (inputValue seen) ])
  end.

(** The state after the handler has run, from the state [now] it runs in. *)
Definition after_submit (now : State) (s : Submit) : State :=
  match s with
  | Dispatched messages => {| inputValue := ""; chat := messages |}
  | _ => now
  end.

(** The value handed to [JSON.stringify] for the request body. *)
Definition completion_payload (messages : list JsVal) : JsVal :=
  JObj [ ("model", JStr (llmUsed options)); ("messages", JArr messages) ].

Definition completion_request (messages : list JsVal) : HttpRequest := {|
  url := "https://api.groq.com/openai/v1/chat/completions";
  method := "POST";
  headers := [ ("Content-Type", "application/json");
               ("Authorization", ("Bearer " ++ groqApiKey options)%string) ];
  body := JSON_stringify E (completion_payload messages) 0
|}.

(** [fetchGroqData(messages)] up to its [setChat]: the message to append. *)
Definition fetchGroqData (messages : list JsVal) : Settled JsVal :=
  response <~ await (fetch W (completion_request messages)) ;;
  data_response <~ await (json response) ;;
  messageResponse <~ run (choices <- member data_response "choices" ;;
                          choice <- index choices 0 ;;
                          member choice "message") ;;
  Resolved messageResponse.

(** [setChat(value => [...value, messageResponse])], if it is reached. *)
Definition after_reply (now : State) (r : Settled JsVal) : State :=
  match r with
  | Resolved messageResponse =>
      {| inputValue := inputValue now; chat := chat now ++ [messageResponse] |}
  | _ => now
  end.

(** [chat.slice(1).map(...)] *)
Definition rendered (transcript : list JsVal) : list JsVal :=
  skipn 1 transcript.

End SimplePanel.

(** ** The component over time

    A submit handler is suspended at its awaits and a completion reply comes
    back later, so handlers and replies interleave. [handlers] holds, for
    every handler that has been started and not yet resumed, the state its
    closure captured; [awaiting] the message lists of the requests not yet
    answered; [sent] those of all requests ever dispatched. The world and the
    options may differ from one step to the next. *)

Record Panel : Type := {
  ui : State;
  handlers : list State;
  awaiting : list (list JsVal);
  sent : list (list JsVal)
}.

Definition mounted : Panel := {|
  ui := {| inputValue := ""; chat := [] |};
  handlers := [];
  awaiting := [];
  sent := []
|}.

Definition dispatched (s : Submit) : list (list JsVal) :=
  match s with
  | Dispatched messages => [messages]
  | _ => []
  end.

Inductive step (E : Engine) : Panel -> Panel -> Prop :=
| step_type (p : Panel) (text : string) :
    step E p {| ui := {| inputValue := text; chat := chat (ui p) |};
                handlers := handlers p;
                awaiting := awaiting p;
                sent := sent p |}
| step_click (p : Panel) :
    step E p {| ui := ui p;
                handlers := handlers p ++ [ui p];
                awaiting := awaiting p;
                sent := sent p |}
| step_submit (p : Panel) (W : World) (options : Options)
    (earlier later : list State) (seen : State) :
    handlers p = earlier ++ seen :: later ->
    step E p {| ui := after_submit (ui p) (submitQuestion E W options seen);
                handlers := earlier ++ later;
                awaiting := awaiting p ++ dispatched (submitQuestion E W options seen);
                sent := sent p ++ dispatched (submitQuestion E W options seen) |}
| step_reply (p : Panel) (W : World) (options : Options)
    (earlier later : list (list JsVal)) (messages : list JsVal) :
    awaiting p = earlier ++ messages :: later ->
    step E p {| ui := after_reply (ui p) (fetchGroqData E W options messages);
                handlers := handlers p;
                awaiting := earlier ++ later;
                sent := sent p |}.

Inductive reachable (E : Engine) : Panel -> Prop :=
| reachable_mounted : reachable E mounted
| reachable_step (p q : Panel) : reachable E p -> step E p q -> reachable E q.

(** A system message as the first branch of [submitQuestion] builds it. *)
Definition synthesized (E : Engine) (m : JsVal) : Prop :=
  exists (options : Options) (panelData : list JsVal),
    m = system_message E options panelData.

(** ** Shapes of well-formed inputs *)

(** A field object with a string name and an array of values. *)
Definition column (field : JsVal) (name : string) (values : list JsVal) : Prop :=
  is_nullish field = false
  /\ get_member field "name" = JStr name
  /\ get_member field "values" = JArr values.

(** A column-oriented response: a non-empty list of frames whose first frame
    carries [fields], these being the columns [cols] in order, with distinct
    names that are ordinary property keys. *)
Definition column_oriented (data : JsVal) (cols : list (string * list JsVal))
  : Prop :=
  exists (frame : JsVal) (others fields : list JsVal),
    data = JArr (frame :: others)
    /\ opt_member frame "fields" = JArr fields
    /\ Forall2 (fun field col => column field (fst col) (snd col)) fields cols
    /\ NoDup (map fst cols)
    /\ ~ In "__proto__" (map fst cols).

(** The number of rows of a column set: the length of its first column. *)
Definition first_length (cols : list (string * list JsVal)) : nat :=
  match cols with
  | [] => 0
  | (_, values) :: _ => List.length values
  end.

(** Row [i] of the columns [cols]. *)
Definition row_of (cols : list (string * list JsVal)) (i : nat)
  : list (string * JsVal) :=
  map (fun col => (fst col, nth i (snd col) JUndefined)) cols.

(** The targets the extractor visits under a panel: the elements of
    [panel.targets] when that is an array, none otherwise. *)
Definition target_list (panel : JsVal) : list JsVal :=
  array_items (get_member panel "targets").

(** A panel that is an object and whose targets are objects. *)
Definition panel_ok (panel : JsVal) : Prop :=
  is_nullish panel = false
  /\ Forall (fun target => is_nullish target = false) (target_list panel).

(** The two forms a panel collection arrives in: the list itself, or a text
    that parses to it. *)
Definition presented (E : Engine) (input : JsVal) (panels : list JsVal) : Prop :=
  input = JArr panels
  \/ exists text : string, input = JStr text /\ JSON_parse E text = Some (JArr panels).

(** Descriptors in panel order and, within a panel, in target order. *)
Definition descriptors_of (panels : list JsVal) : list Target :=
  flat_map (fun panel => map (descriptor panel) (target_list panel)) panels.

Definition total_targets (panels : list JsVal) : nat :=
  list_sum (map (fun panel => List.length (target_list panel)) panels).

(** ** Sample engine and inputs for the examples *)

(** An engine with no parser and a blank serializer; the examples do not
    look at the texts it produces. *)
Definition sample_engine : Engine := {|
  JSON_parse := fun _ => None;
  JSON_stringify := fun _ _ => "";
  ToPropertyKey := fun _ => Threw TypeError;
  IterationsBelow := fun _ => Returned 0
|}.

(** One frame with the columns [id = [1, 2]] and [city = ["Ulm", "Bonn"]]. *)
Definition sample_columns : list (string * list JsVal) :=
  [ ("id", [JNum 1; JNum 2]); ("city", [JStr "Ulm"; JStr "Bonn"]) ].

Definition sample_frames : JsVal :=
  JArr [ JObj [ ("fields",
    JArr [ JObj [ ("name", JStr "id"); ("values", JArr [JNum 1; JNum 2]) ];
           JObj [ ("name", JStr "city");
                  ("values", JArr [JStr "Ulm"; JStr "Bonn"]) ] ]) ] ].

(** A frame whose first field has no [values] while the second has three. *)
Definition headless_frames : JsVal :=
  JArr [ JObj [ ("fields",
    JArr [ JObj [ ("name", JStr "id") ];
           JObj [ ("name", JStr "city");
                  ("values", JArr [JStr "Ulm"; JStr "Bonn"; JStr "Kiel"]) ] ]) ] ].

(** Two panels: the first with two targets, the second without a target
    list. *)
Definition sample_panels : list JsVal :=
  [ JObj [ ("title", JStr "Load");
           ("targets",
            JArr [ JObj [ ("datasource", JStr "db"); ("rawSql", JStr "SELECT 1");
                          ("refId", JStr "A"); ("format", JStr "table") ];
                   JObj [ ("rawSql", JStr "SELECT 2") ] ]) ];
    JObj [ ("title", JStr "Notes"); ("description", JStr "free text") ] ].

(** A data source that answers every query with the frame above, one whose
    stream signals an error, and one whose [query] throws. *)
Definition rows_source : DataSource := {|
  query := fun _ => Stream (Emits (JObj [ ("data", sample_frames) ]))
|}.

Definition broken_source : DataSource := {|
  query := fun _ => Stream (Errors (Raised (JStr "relation does not exist")))
|}.

Definition throwing_source : DataSource := {|
  query := fun _ => QueryThrows TypeError
|}.

(** The registry knows ["db"], ["broken"] and ["throwing"]. *)
Definition sample_registry (ref : JsVal) : Reply DataSource :=
  match ref with
  | JStr name =>
      if name =? "db" then Resolves rows_source
      else if name =? "broken" then Resolves broken_source
      else if name =? "throwing" then Resolves throwing_source
      else Rejects (Raised (JStr "Datasource not found"))
  | _ => Rejects (Raised (JStr "Datasource not found"))
  end.

Definition assistant_reply : HttpResponse := {|
  json := Resolves (JObj [ ("choices",
            JArr [ JObj [ ("message", message "assistant" "Hello") ] ]) ])
|}.

(** A world whose dashboard holds [panels] and whose completion service
    answers [reply]. *)
Definition world_with (panels : list JsVal) (reply : Reply HttpResponse) : World := {|
  dashboardUID := Some "d1";
  backendGet := fun _ => Resolves (JObj [ ("dashboard", JObj [ ("panels", JArr panels) ]) ]);
  dataSourceGet := sample_registry;
  clock := fun _ => (7200000, 7200004)%Z;
  fetch := fun _ => reply
|}.

Definition sample_options : Options := {|
  groqApiKey := "key";
  initalChatMessage := "You are a helpful analyst.";
  llmUsed := "llama-3.3-70b-versatile"
|}.

(** A descriptor as a caller may hand it to the executor, without [refId]
    and [format]. *)
Definition db_target : Target := {|
  datasource := JStr "db";
  rawSql := JStr "SELECT 1";
  refId := JUndefined;
  format := JUndefined;
  title := JStr "Load";
  description := JStr ""
|}.

(** ** Outcomes of an executor run *)

(** A run ends with rows when the data source resolves, its stream emits a
    batch, and the normalizer returns [rows] for that batch. *)
Definition succeeds (E : Engine) (W : World) (n : nat) (target : Target)
  (rows : list JsVal) : Prop :=
  truthy (datasource target) = true
  /\ exists (ds : DataSource) (response : JsVal),
       dataSourceGet W (datasource target) = Resolves ds
       /\ query ds (query_request (clock W n) target) = Stream (Emits response)
       /\ (data <- member response "data" ;; convertGrafanaDataToJson E data)
          = Returned rows.

(** The failures the executor handles itself: no data-source reference, a
    reference the registry rejects, a [query] call that throws. *)
Definition caught_failure (W : World) (n : nat) (target : Target) : Prop :=
  truthy (datasource target) = false
  \/ (exists e : JsError, dataSourceGet W (datasource target) = Rejects e)
  \/ (exists (ds : DataSource) (e : JsError),
        dataSourceGet W (datasource target) = Resolves ds
        /\ query ds (query_request (clock W n) target) = QueryThrows e).

(** The failure it hands on: the stream signals an error. *)
Definition stream_failure (W : World) (n : nat) (target : Target) (e : JsError)
  : Prop :=
  truthy (datasource target) = true
  /\ exists ds : DataSource,
       dataSourceGet W (datasource target) = Resolves ds
       /\ query ds (query_request (clock W n) target) = Stream (Errors e).

Definition settled_value (s : Settled JsVal) : JsVal :=
  match s with
  | Resolved v => v
  | _ => JUndefined
  end.

(** Dashboards for the examples: a healthy panel next to one without a data
    source, and a healthy panel next to one whose query fails. *)
Definition load_panel : JsVal :=
  JObj [ ("title", JStr "Load");
         ("targets", JArr [ JObj [ ("datasource", JStr "db");
                                   ("rawSql", JStr "SELECT 1") ] ]) ].

Definition orders_panel (ds : list (string * JsVal)) : JsVal :=
  JObj [ ("title", JStr "Orders");
         ("targets", JArr [ JObj (ds ++ [ ("rawSql", JStr "SELECT 2") ]) ]) ].

Definition load_target : Target := descriptor load_panel
  (JObj [ ("datasource", JStr "db"); ("rawSql", JStr "SELECT 1") ]).

Definition orders_target (ds : list (string * JsVal)) : Target :=
  descriptor (orders_panel ds) (JObj (ds ++ [ ("rawSql", JStr "SELECT 2") ])).

Definition sample_rows : list JsVal :=
  [ JObj [ ("id", JNum 1); ("city", JStr "Ulm") ];
    JObj [ ("id", JNum 2); ("city", JStr "Bonn") ] ].

Definition mixed_world : World :=
  world_with [ load_panel; orders_panel [] ] (Resolves assistant_reply).

Definition broken_world : World :=
  world_with [ load_panel; orders_panel [ ("datasource", JStr "broken") ] ]
    (Resolves assistant_reply).

(** ** The transcript invariant *)

Definition starts_with_system (E : Engine) (transcript : list JsVal) : Prop :=
  exists (m : JsVal) (rest : list JsVal), transcript = m :: rest /\ synthesized E m.

Definition head_ok (E : Engine) (transcript : list JsVal) : Prop :=
  transcript = [] \/ starts_with_system E transcript.

Definition invariant (E : Engine) (p : Panel) : Prop :=
  head_ok E (chat (ui p))
  /\ Forall (fun seen => head_ok E (chat seen)) (handlers p)
  /\ Forall (starts_with_system E) (sent p)
  /\ (awaiting p <> [] -> chat (ui p) <> []).

(** The state in which a first question has been typed. *)
Definition asking (text : string) : State :=
  {| inputValue := text; chat := [] |}.

(** The panel after typing ["How busy?"], pressing send and letting the
    handler run in [mixed_world]. *)
Definition typed_panel : Panel := {|
  ui := {| inputValue := "How busy?"; chat := chat (ui mounted) |};
  handlers := handlers mounted;
  awaiting := awaiting mounted;
  sent := sent mounted
|}.

Definition clicked_panel : Panel := {|
  ui := ui typed_panel;
  handlers := handlers typed_panel ++ [ui typed_panel];
  awaiting := awaiting typed_panel;
  sent := sent typed_panel
|}.

Definition answered_panel : Panel := {|
  ui := after_submit (ui clicked_panel)
          (submitQuestion sample_engine mixed_world sample_options
             (asking "How busy?"));
  handlers := [] ++ [];
  awaiting := awaiting clicked_panel
              ++ dispatched (submitQuestion sample_engine mixed_world
                               sample_options (asking "How busy?"));
  sent := sent clicked_panel
          ++ dispatched (submitQuestion sample_engine mixed_world
                           sample_options (asking "How busy?"))
|}.

(** The scenario of the specification: panel A with one target, panel B with
    an empty target list. *)
Definition scenario_world : World :=
  world_with [ load_panel; JObj [ ("title", JStr "B"); ("targets", JArr []) ] ]
    (Resolves assistant_reply).

(** A frame whose only column is named [__proto__]. *)
Definition proto_frames : JsVal :=
  JArr [ JObj [ ("fields",
    JArr [ JObj [ ("name", JStr "__proto__"); ("values", JArr [JNum 1]) ] ]) ] ].

(** ** Further shapes used by the properties of the whole code *)

(** The fields of frame 0 are the columns [cols], in order; nothing is asked
    of the names. *)
Definition columns (fields : list JsVal) (cols : list (string * list JsVal))
  : Prop :=
  Forall2 (fun field col => column field (fst col) (snd col)) fields cols.

(** The cells of row [i] written one after the other, as the [forEach] over
    the fields writes them. *)
Definition write_cells (cols : list (string * list JsVal)) (i : nat)
  (row : list (string * JsVal)) : list (string * JsVal) :=
  fold_left (fun r col => put_own r (fst col) (nth i (snd col) JUndefined))
    cols row.

(** The values of the last column called [name]. *)
Fixpoint last_column (cols : list (string * list JsVal)) (name : string)
  : option (list JsVal) :=
  match cols with
  | [] => None
  | (k, values) :: rest =>
      match last_column rest name with
      | Some later => Some later
      | None => if k =? name then Some values else None
      end
  end.

(** A frame with two columns called [id]. *)
Definition twice_columns : list (string * list JsVal) :=
  [ ("id", [JNum 1; JNum 2]); ("id", [JStr "a"]) ].

Definition twice_fields : list JsVal :=
  [ JObj [ ("name", JStr "id"); ("values", JArr [JNum 1; JNum 2]) ];
    JObj [ ("name", JStr "id"); ("values", JArr [JStr "a"]) ] ].

(** A frame whose second field has no [values]. *)
Definition ragged_fields : list JsVal :=
  [ JObj [ ("name", JStr "id"); ("values", JArr [JNum 1]) ];
    JObj [ ("name", JStr "city") ] ].

(** A panel on which the extractor raises: the panel itself is [null] or
    [undefined], or one of its targets is. *)
Definition breaking_panel (panel : JsVal) : Prop :=
  is_nullish panel = true
  \/ exists target : JsVal, In target (target_list panel) /\ is_nullish target = true.

(** The targets of a panel that carry a raw query. *)
Definition queried_targets (panel : JsVal) : list JsVal :=
  filter (fun target => truthy (get_member target "rawSql")) (target_list panel).

(** A dashboard reply holding [panels]. *)
Definition dashboard_reply (panels : JsVal) : JsVal :=
  JObj [ ("dashboard", JObj [ ("panels", panels) ]) ].

(** ** What the component draws: the message list of [SimplePanel]'s JSX *)

Module View.

(** One message of the thread: the [key] and [textAlign] of the [div], the
    [background] and [color] of the [span] and the child it shows. *)
Record bubble : Type := {
  key : nat;
  textAlign : string;
  background : string;
  color : string;
  content : JsVal
}.

End View.

(** [role === 'user'] *)
Definition is_user (role : JsVal) : bool :=
  match role with
  | JStr s => s =? "user"
  | _ => false
  end.

(** The callback of [chat.slice(1).map((msg, index) => ...)]. *)
Definition draw (index : nat) (msg : JsVal) : Outcome View.bubble :=
  role <- member msg "role" ;;
  content <- member msg "content" ;;
  Returned {|
    View.key := index;
    View.textAlign := if is_user role then "right" else "left";
    View.background := if is_user role then "#007bff" else "#ccc";
    View.color := if is_user role then "white" else "black";
    View.content := content
  |}.

(** [xs.map((x, index) => f(index, x))], stopping at the first throw. *)
Fixpoint map_with_index {A B : Type} (f : nat -> A -> Outcome B) (index : nat)
  (xs : list A) : Outcome (list B) :=
  match xs with
  | [] => Returned []
  | x :: rest =>
      b <- f index x ;;
      bs <- map_with_index f (S index) rest ;;
      Returned (b :: bs)
  end.

Definition thread (transcript : list JsVal) : Outcome (list View.bubble) :=
  map_with_index draw 0 (rendered transcript).

(** A transcript that opens with a system message and a user's question. *)
Definition opened (E : Engine) (transcript : list JsVal) : Prop :=
  exists (sys : JsVal) (question : string) (rest : list JsVal),
    transcript = sys :: user_message question :: rest /\ synthesized E sys.

Definition opening (E : Engine) (p : Panel) : Prop :=
  (chat (ui p) = [] \/ opened E (chat (ui p)))
  /\ Forall (fun seen => chat seen = [] \/ opened E (chat seen)) (handlers p).

(** A completion service whose reply has a first choice without [message],
    and one that answers with an error body. *)
Definition hollow_reply : HttpResponse := {|
  json := Resolves (JObj [ ("choices", JArr [ JObj [ ("index", JNum 0) ] ]) ])
|}.

Definition error_reply : HttpResponse := {|
  json := Resolves (JObj [ ("error", JObj [ ("message", JStr "Invalid API Key") ]) ])
|}.

Definition started : State := {|
  inputValue := "";
  chat := [ system_message sample_engine sample_options [];
            user_message "How busy?" ]
|}.

(** The bubble [draw] returns for a message that is an object. *)
Definition drawn (index : nat) (msg : JsVal) : View.bubble := {|
  View.key := index;
  View.textAlign := if is_user (get_member msg "role") then "right" else "left";
  View.background := if is_user (get_member msg "role") then "#007bff" else "#ccc";
  View.color := if is_user (get_member msg "role") then "white" else "black";
  View.content := get_member msg "content"
|}.


(** An engine that names the keys [undefined] and [null] as the language
    does. *)
Definition naming_engine : Engine := {|
  JSON_parse := fun _ => None;
  JSON_stringify := fun _ _ => "";
  ToPropertyKey := fun v =>
    match v with
    | JUndefined => Returned "undefined"
    | JNull => Returned "null"
    | _ => Threw TypeError
    end;
  IterationsBelow := fun _ => Returned 0
|}.

(** Frames with a column [id] and a column named [__proto__]; with two
    columns named [__proto__], the first holding [null]; and with a second
    field that is an array. *)
Definition id_proto_frames : JsVal :=
  JArr [ JObj [ ("fields",
    JArr [ JObj [ ("name", JStr "id"); ("values", JArr [JNum 1]) ];
           JObj [ ("name", JStr "__proto__"); ("values", JArr [JNum 7]) ] ]) ] ].

Definition proto_twice_frames : JsVal :=
  JArr [ JObj [ ("fields",
    JArr [ JObj [ ("name", JStr "__proto__"); ("values", JArr [JNull]) ];
           JObj [ ("name", JStr "__proto__"); ("values", JArr [JNum 5]) ] ]) ] ].

Definition array_field_frames : JsVal :=
  JArr [ JObj [ ("fields",
    JArr [ JObj [ ("name", JStr "id"); ("values", JArr [JNum 1]) ];
           JArr [] ]) ] ].

(** The target a descriptor is built from, with its panel. *)
Definition sources_of (panels : list JsVal) : list (JsVal * JsVal) :=
  flat_map (fun panel => map (pair panel) (target_list panel)) panels.

(** * Properties *)

(** ** Objects as property lists *)

Lemma own_prop_absent (props : list (string * JsVal)) (key : string) :
  ~ In key (map fst props) -> own_prop props key = None.
Proof.
  induction props as [| [k v] rest IH]; simpl; intros Hnot.
  - reflexivity.
  - destruct (String.eqb_spec k key) as [-> | _].
    + exfalso. apply Hnot. now left.
    + apply IH. intros Hin. apply Hnot. now right.
Qed.

(** A write under any key but [__proto__] is a write of an own property. *)
Lemma set_prop_ordinary (o : PlainObject) (key : string) (v : JsVal) :
  key <> "__proto__" ->
  set_prop o key v = {| own := put_own (own o) key v; proto := proto o |}.
Proof.
  intros Hproto. unfold set_prop.
  now destruct (String.eqb_spec key "__proto__") as [Heq | _].
Qed.

Lemma put_own_fresh (props : list (string * JsVal)) (key : string) (v : JsVal) :
  ~ In key (map fst props) ->
  put_own props key v = props ++ [(key, v)].
Proof.
  intros Hnot. unfold put_own. now rewrite own_prop_absent.
Qed.

(** A field with an array of values is not itself an array: its [values] is
    its own property, not the inherited method. *)
Lemma column_read (field : JsVal) (name : string) (values : list JsVal) :
  column field name values -> read field "values" = Value (JArr values).
Proof.
  intros (_ & _ & Hvalues). destruct field; simpl in *; try now rewrite Hvalues.
  discriminate.
Qed.

Lemma own_prop_row_of (cols : list (string * list JsVal)) (i : nat)
  (name : string) (values : list JsVal) :
  NoDup (map fst cols) ->
  In (name, values) cols ->
  own_prop (row_of cols i) name = Some (nth i values JUndefined).
Proof.
  induction cols as [| [k vs] rest IH]; simpl; intros Hnd Hin.
  - contradiction.
  - inversion Hnd as [| x l Hfresh Hrest]; subst.
    destruct Hin as [Heq | Hin].
    + inversion Heq; subst. now rewrite String.eqb_refl.
    + destruct (String.eqb_spec k name) as [-> | _].
      * exfalso. apply Hfresh. apply (in_map fst) in Hin. exact Hin.
      * now apply IH.
Qed.

Lemma row_of_keys (cols : list (string * list JsVal)) (i : nat) :
  map fst (row_of cols i) = map fst cols.
Proof.
  unfold row_of. rewrite map_map. reflexivity.
Qed.

(** ** Row Normalizer *)

Section RowNormalizerFacts.

Variable E : Engine.

Lemma assign_cell_column (i : nat) (row : PlainObject) (field : JsVal)
  (name : string) (values : list JsVal) :
  column field name values ->
  assign_cell E i row field = Returned (set_prop row name (nth i values JUndefined)).
Proof.
  intros Hcol. pose proof (column_read field name values Hcol) as Hread.
  destruct Hcol as (Hobj & Hname & _).
  unfold assign_cell, member, member_read. rewrite Hobj. simpl.
  rewrite Hname, Hread. reflexivity.
Qed.

(** The [forEach] over well-formed fields appends one cell per column. *)
Lemma for_each_field (i : nat) (fields : list JsVal)
  (cols : list (string * list JsVal)) :
  Forall2 (fun field col => column field (fst col) (snd col)) fields cols ->
  forall row : PlainObject,
    NoDup (map fst (own row) ++ map fst cols) ->
    ~ In "__proto__" (map fst cols) ->
    for_of (assign_cell E i) fields row
    = Returned {| own := own row ++ row_of cols i; proto := proto row |}.
Proof.
  induction 1 as [| field [name values] fields cols Hcol _ IH];
    intros row Hnd Hproto; simpl.
  - rewrite app_nil_r. now destruct row.
  - simpl in Hcol, Hnd, Hproto.
    rewrite (assign_cell_column i row field name values Hcol). simpl.
    assert (Hfresh : ~ In name (map fst (own row))).
    { intros Hin. apply NoDup_remove_2 in Hnd. apply Hnd.
      apply in_or_app. now left. }
    rewrite set_prop_ordinary by (intros ->; apply Hproto; now left).
    rewrite put_own_fresh by exact Hfresh.
    rewrite IH; simpl.
    + now rewrite <- app_assoc.
    + rewrite map_app, <- app_assoc. exact Hnd.
    + intros Hin. apply Hproto. now right.
Qed.

Lemma build_row_columns (i : nat) (fields : list JsVal)
  (cols : list (string * list JsVal)) :
  Forall2 (fun field col => column field (fst col) (snd col)) fields cols ->
  NoDup (map fst cols) ->
  ~ In "__proto__" (map fst cols) ->
  build_row E fields i = Returned (JObj (row_of cols i)).
Proof.
  intros Hcols Hnd Hproto. unfold build_row.
  rewrite (for_each_field i fields cols Hcols empty_object); auto.
Qed.

Lemma row_loop_columns (fields : list JsVal) (cols : list (string * list JsVal)) :
  Forall2 (fun field col => column field (fst col) (snd col)) fields cols ->
  NoDup (map fst cols) ->
  ~ In "__proto__" (map fst cols) ->
  forall (todo start : nat) (result : list JsVal),
    row_loop E fields todo start result
    = Returned (result ++ map (fun i => JObj (row_of cols i)) (seq start todo)).
Proof.
  intros Hcols Hnd Hproto.
  induction todo as [| todo IH]; intros start result; simpl.
  - now rewrite app_nil_r.
  - rewrite (build_row_columns start fields cols); auto. simpl.
    rewrite IH, <- app_assoc. reflexivity.
Qed.

Lemma rowCount_columns (fields : list JsVal) (cols : list (string * list JsVal)) :
  Forall2 (fun field col => column field (fst col) (snd col)) fields cols ->
  rowCount (JArr fields) = JNum (Z.of_nat (first_length cols)).
Proof.
  intros Hcols. unfold rowCount.
  destruct Hcols as [| field [name values] fields cols Hcol _]; simpl.
  - reflexivity.
  - pose proof (column_read field name values Hcol) as Hread.
    destruct Hcol as (Hobj & _ & _).
    unfold opt_read. rewrite Hobj, Hread. simpl.
    unfold truthy_or. simpl.
    destruct (Z.eqb_spec (Z.of_nat (List.length values)) 0) as [Hz | Hz]; simpl.
    + now rewrite Hz.
    + reflexivity.
Qed.

Lemma normalizer_columns (data : JsVal) (cols : list (string * list JsVal)) :
  column_oriented data cols ->
  convertGrafanaDataToJson E data
  = Returned (map (fun i => JObj (row_of cols i)) (seq 0 (first_length cols))).
Proof.
  intros (frame & others & fields & -> & Hfields & Hcols & Hnd & Hproto).
  unfold convertGrafanaDataToJson. simpl.
  rewrite Hfields. simpl.
  rewrite (rowCount_columns fields cols Hcols). simpl.
  rewrite Nat2Z.id.
  now rewrite (row_loop_columns fields cols Hcols Hnd Hproto).
Qed.

End RowNormalizerFacts.

(** Where no column is named [__proto__]: on a column-oriented input whose
    first frame has the K columns [cols], with distinct names, and whose
    first column has R values, the normalizer returns exactly R records;
    record [i] has exactly K keys, the column names, and maps each column's
    name to that column's value at index [i]. *)
Theorem normalizer_records (E : Engine) (data : JsVal)
  (cols : list (string * list JsVal)) :
  column_oriented data cols ->
  exists rows : list JsVal,
    convertGrafanaDataToJson E data = Returned rows
    /\ List.length rows = first_length cols
    /\ forall i : nat, i < first_length cols ->
         exists props : list (string * JsVal),
           nth_error rows i = Some (JObj props)
           /\ List.length props = List.length cols
           /\ map fst props = map fst cols
           /\ forall (name : string) (values : list JsVal),
                In (name, values) cols ->
                own_prop props name = Some (get_index (JArr values) i).
Proof.
  intros Hvalid.
  pose proof Hvalid as (_ & _ & _ & _ & _ & _ & Hnd & _).
  exists (map (fun i => JObj (row_of cols i)) (seq 0 (first_length cols))).
  split; [now apply normalizer_columns |].
  split; [now rewrite length_map, length_seq |].
  intros i Hi. exists (row_of cols i). repeat split.
  - rewrite nth_error_map, nth_error_seq.
    destruct (Nat.ltb_spec i (first_length cols)); [reflexivity | lia].
  - unfold row_of. now rewrite length_map.
  - apply row_of_keys.
  - intros name values Hin. simpl. now apply own_prop_row_of.
Qed.

Lemma normalizer_records_witness :
  exists rows : list JsVal,
    convertGrafanaDataToJson sample_engine sample_frames = Returned rows
    /\ List.length rows = 2
    /\ forall i : nat, i < 2 ->
         exists props : list (string * JsVal),
           nth_error rows i = Some (JObj props)
           /\ List.length props = 2
           /\ map fst props = ["id"; "city"]
           /\ forall (name : string) (values : list JsVal),
                In (name, values) sample_columns ->
                own_prop props name = Some (get_index (JArr values) i).
Proof.
  apply (normalizer_records sample_engine sample_frames sample_columns).
  exists (JObj [ ("fields",
    JArr [ JObj [ ("name", JStr "id"); ("values", JArr [JNum 1; JNum 2]) ];
           JObj [ ("name", JStr "city");
                  ("values", JArr [JStr "Ulm"; JStr "Bonn"]) ] ]) ]).
  exists [].
  exists [ JObj [ ("name", JStr "id"); ("values", JArr [JNum 1; JNum 2]) ];
           JObj [ ("name", JStr "city");
                  ("values", JArr [JStr "Ulm"; JStr "Bonn"]) ] ].
  split; [reflexivity |].
  split; [reflexivity |].
  split; [repeat constructor |].
  split.
  - repeat constructor; simpl; intuition congruence.
  - simpl. intuition congruence.
Defined.

(** C3. A column named [__proto__] is lost. The frame [proto_frames] is
    column-oriented with K = 1 column, named [__proto__], of R = 1 value; the
    normalizer returns one record, and that record has no key at all: the
    write [row[field.name] = field.values[i]] went to the prototype setter
    the fresh record inherits, not to a property. With the columns [id] and
    [__proto__] (K = 2) the record has the single key [id]. *)
Theorem C3_proto_column_lost :
  (exists frame : JsVal,
     proto_frames = JArr [ frame ]
     /\ exists fields : list JsVal,
          opt_member frame "fields" = JArr fields
          /\ columns fields [ ("__proto__", [ JNum 1 ]) ]
          /\ NoDup (map fst [ ("__proto__", [ JNum 1 ]) ]))
  /\ convertGrafanaDataToJson sample_engine proto_frames = Returned [ JObj [] ]
  /\ (forall props : list (string * JsVal),
        convertGrafanaDataToJson sample_engine proto_frames
        = Returned [ JObj props ] ->
        List.length props = 0 /\ own_prop props "__proto__" = None)
  /\ convertGrafanaDataToJson sample_engine id_proto_frames
     = Returned [ JObj [ ("id", JNum 1) ] ].
Proof.
  split.
  { eexists. split; [reflexivity |]. eexists. split; [reflexivity |].
    split; [repeat constructor | repeat constructor; now intros []]. }
  split; [reflexivity |].
  split; [| reflexivity].
  intros props Heq. inversion Heq. split; reflexivity.
Qed.

(** C10. The row count comes from the first field of frame 0 alone: when the
    field list of frame 0 is non-empty and its first field is missing ([null]
    or [undefined]) or has no [values], the row count is 0 and the Row
    Normalizer returns the empty sequence without raising, whatever the other
    fields hold. *)
Theorem C10_first_field_decides (E : Engine) (frame first : JsVal)
  (others rest : list JsVal) :
  opt_member frame "fields" = JArr (first :: rest) ->
  is_nullish first = true \/ is_nullish (get_member first "values") = true ->
  rowCount (JArr (first :: rest)) = JNum 0
  /\ convertGrafanaDataToJson E (JArr (frame :: others)) = Returned [].
Proof.
  intros Hfields Hlacks.
  assert (Hcount : rowCount (JArr (first :: rest)) = JNum 0).
  { unfold rowCount. simpl. unfold opt_read.
    destruct Hlacks as [Hfirst | Hvalues].
    - now rewrite Hfirst.
    - destruct (is_nullish first); [reflexivity |].
      destruct first; simpl in *; try reflexivity;
        unfold opt_member; now rewrite Hvalues. }
  split; [exact Hcount |].
  unfold convertGrafanaDataToJson. simpl.
  rewrite Hfields. simpl. rewrite Hcount. reflexivity.
Qed.

Lemma C10_first_field_decides_witness :
  rowCount (JArr [ JObj [ ("name", JStr "id") ];
                   JObj [ ("name", JStr "city");
                          ("values", JArr [JStr "Ulm"; JStr "Bonn"; JStr "Kiel"]) ] ])
  = JNum 0
  /\ convertGrafanaDataToJson sample_engine headless_frames = Returned [].
Proof.
  apply (C10_first_field_decides sample_engine
           (JObj [ ("fields",
              JArr [ JObj [ ("name", JStr "id") ];
                     JObj [ ("name", JStr "city");
                            ("values",
                             JArr [JStr "Ulm"; JStr "Bonn"; JStr "Kiel"]) ] ]) ])
           (JObj [ ("name", JStr "id") ]) []).
  - reflexivity.
  - right. reflexivity.
Defined.

(** ** Dashboard Query Extractor *)

Lemma push_target_object (panel target : JsVal) (response : list Target) :
  is_nullish panel = false ->
  is_nullish target = false ->
  push_target panel response target = Returned (response ++ [descriptor panel target]).
Proof.
  intros Hpanel Htarget. unfold push_target, member.
  rewrite Hpanel, Htarget. reflexivity.
Qed.

Lemma for_of_targets (panel : JsVal) (targets : list JsVal) :
  is_nullish panel = false ->
  Forall (fun target => is_nullish target = false) targets ->
  forall response : list Target,
    for_of (push_target panel) targets response
    = Returned (response ++ map (descriptor panel) targets).
Proof.
  intros Hpanel. induction 1 as [| target targets Htarget _ IH];
    intros response; simpl.
  - now rewrite app_nil_r.
  - rewrite push_target_object by assumption. simpl.
    rewrite IH, <- app_assoc. reflexivity.
Qed.

Lemma visit_panel_ok (panel : JsVal) (response : list Target) :
  panel_ok panel ->
  visit_panel response panel
  = Returned (response ++ map (descriptor panel) (target_list panel)).
Proof.
  intros [Hpanel Htargets]. unfold visit_panel, member. rewrite Hpanel. simpl.
  unfold target_list in *.
  destruct (get_member panel "targets") as [| | b | n | s | items | props];
    simpl in *; try (now rewrite app_nil_r).
  - destruct b; simpl; now rewrite app_nil_r.
  - destruct (negb (n =? 0)%Z); simpl; now rewrite app_nil_r.
  - destruct (negb (s =? "")); simpl; now rewrite app_nil_r.
  - now apply for_of_targets.
Qed.

Lemma for_of_panels (panels : list JsVal) :
  Forall panel_ok panels ->
  forall response : list Target,
    for_of visit_panel panels response = Returned (response ++ descriptors_of panels).
Proof.
  induction 1 as [| panel panels Hpanel _ IH]; intros response; simpl.
  - now rewrite app_nil_r.
  - rewrite visit_panel_ok by assumption. simpl.
    rewrite IH, <- app_assoc. reflexivity.
Qed.

Lemma extractor_descriptors (E : Engine) (input : JsVal) (panels : list JsVal) :
  presented E input panels ->
  Forall panel_ok panels ->
  convertDashboardData E input = Returned (descriptors_of panels).
Proof.
  intros [-> | (text & -> & Hparse)] Hok; unfold convertDashboardData;
    [| rewrite Hparse]; simpl; now rewrite for_of_panels.
Qed.

Lemma descriptors_count (panels : list JsVal) :
  List.length (descriptors_of panels) = total_targets panels.
Proof.
  unfold descriptors_of, total_targets.
  induction panels as [| panel panels IH]; simpl.
  - reflexivity.
  - now rewrite length_app, length_map, IH.
Qed.

(** C4. On a panel list (given as a list or as text that parses to one) the
    extractor returns one descriptor per target, [T] in all, a panel without
    a target list contributing none; they come in panel order and, within a
    panel, in target order. *)
Theorem C4_extractor_count_and_order (E : Engine) (input : JsVal)
  (panels : list JsVal) :
  presented E input panels ->
  Forall panel_ok panels ->
  exists out : list Target,
    convertDashboardData E input = Returned out
    /\ List.length out = total_targets panels
    /\ out = flat_map (fun panel => map (descriptor panel) (target_list panel))
               panels.
Proof.
  intros Hin Hok. exists (descriptors_of panels).
  split; [now apply extractor_descriptors |].
  split; [apply descriptors_count | reflexivity].
Qed.

Lemma sample_panels_ok : Forall panel_ok sample_panels.
Proof.
  repeat constructor.
Qed.

Lemma C4_extractor_count_and_order_witness :
  exists out : list Target,
    convertDashboardData sample_engine (JArr sample_panels) = Returned out
    /\ List.length out = 2
    /\ out = flat_map (fun panel => map (descriptor panel) (target_list panel))
               sample_panels.
Proof.
  apply (C4_extractor_count_and_order sample_engine (JArr sample_panels)
           sample_panels).
  - left. reflexivity.
  - exact sample_panels_ok.
Defined.

Lemma descriptors_paired (panels : list JsVal) :
  Forall2 (fun d source => d = descriptor (fst source) (snd source))
    (descriptors_of panels) (sources_of panels).
Proof.
  unfold descriptors_of, sources_of.
  induction panels as [| panel panels IH]; simpl; [constructor |].
  apply Forall2_app; [| exact IH].
  induction (target_list panel) as [| target targets IHt]; simpl; now constructor.
Qed.

(** C6. The extractor emits one descriptor for every target of every panel,
    in order, and each descriptor is fixed by its target and its panel: its
    [datasource] is the target's, or ["Unknown"] when the target has none;
    its [rawSql], [refId] and [format] are the target's, or the empty string;
    its [title] and [description] are the panel's, or the empty string. So
    every descriptor emitted comes from a target of a panel and carries these
    values. *)
Theorem C6_extractor_defaults (E : Engine) (input : JsVal) (panels : list JsVal) :
  presented E input panels ->
  Forall panel_ok panels ->
  exists out : list Target,
    convertDashboardData E input = Returned out
    /\ Forall2
         (fun (d : Target) (source : JsVal * JsVal) =>
           datasource d
              = (if is_nullish (get_member (snd source) "datasource")
                 then JStr "Unknown" else get_member (snd source) "datasource")
           /\ rawSql d
              = (if is_nullish (get_member (snd source) "rawSql")
                 then JStr "" else get_member (snd source) "rawSql")
           /\ refId d
              = (if is_nullish (get_member (snd source) "refId")
                 then JStr "" else get_member (snd source) "refId")
           /\ format d
              = (if is_nullish (get_member (snd source) "format")
                 then JStr "" else get_member (snd source) "format")
           /\ title d
              = (if is_nullish (get_member (fst source) "title")
                 then JStr "" else get_member (fst source) "title")
           /\ description d
              = (if is_nullish (get_member (fst source) "description")
                 then JStr "" else get_member (fst source) "description"))
         out (sources_of panels)
    /\ forall d : Target, In d out ->
         exists panel target : JsVal,
           In panel panels /\ In target (target_list panel)
           /\ datasource d
              = (if is_nullish (get_member target "datasource")
                 then JStr "Unknown" else get_member target "datasource")
           /\ rawSql d
              = (if is_nullish (get_member target "rawSql")
                 then JStr "" else get_member target "rawSql")
           /\ refId d
              = (if is_nullish (get_member target "refId")
                 then JStr "" else get_member target "refId")
           /\ format d
              = (if is_nullish (get_member target "format")
                 then JStr "" else get_member target "format")
           /\ title d
              = (if is_nullish (get_member panel "title")
                 then JStr "" else get_member panel "title")
           /\ description d
              = (if is_nullish (get_member panel "description")
                 then JStr "" else get_member panel "description").
Proof.
  intros Hin Hok. exists (descriptors_of panels).
  split; [now apply extractor_descriptors |]. split.
  - pose proof (descriptors_paired panels) as Hpaired.
    induction Hpaired as [| d source out sources Hd _ IH]; constructor;
      [| exact IH].
    subst d. now repeat split.
  - intros d Hd. unfold descriptors_of in Hd.
    apply in_flat_map in Hd as (panel & Hpanel & Hd).
    apply in_map_iff in Hd as (target & <- & Htarget).
    exists panel, target. repeat split; assumption.
Qed.

Lemma C6_extractor_defaults_witness :
  exists out : list Target,
    convertDashboardData sample_engine (JArr sample_panels) = Returned out
    /\ Forall2
         (fun (d : Target) (source : JsVal * JsVal) =>
           datasource d
              = (if is_nullish (get_member (snd source) "datasource")
                 then JStr "Unknown" else get_member (snd source) "datasource")
           /\ rawSql d
              = (if is_nullish (get_member (snd source) "rawSql")
                 then JStr "" else get_member (snd source) "rawSql")
           /\ refId d
              = (if is_nullish (get_member (snd source) "refId")
                 then JStr "" else get_member (snd source) "refId")
           /\ format d
              = (if is_nullish (get_member (snd source) "format")
                 then JStr "" else get_member (snd source) "format")
           /\ title d
              = (if is_nullish (get_member (fst source) "title")
                 then JStr "" else get_member (fst source) "title")
           /\ description d
              = (if is_nullish (get_member (fst source) "description")
                 then JStr "" else get_member (fst source) "description"))
         out (sources_of sample_panels)
    /\ forall d : Target, In d out ->
         exists panel target : JsVal,
           In panel sample_panels /\ In target (target_list panel)
           /\ datasource d
              = (if is_nullish (get_member target "datasource")
                 then JStr "Unknown" else get_member target "datasource")
           /\ rawSql d
              = (if is_nullish (get_member target "rawSql")
                 then JStr "" else get_member target "rawSql")
           /\ refId d
              = (if is_nullish (get_member target "refId")
                 then JStr "" else get_member target "refId")
           /\ format d
              = (if is_nullish (get_member target "format")
                 then JStr "" else get_member target "format")
           /\ title d
              = (if is_nullish (get_member panel "title")
                 then JStr "" else get_member panel "title")
           /\ description d
              = (if is_nullish (get_member panel "description")
                 then JStr "" else get_member panel "description").
Proof.
  apply (C6_extractor_defaults sample_engine (JArr sample_panels) sample_panels).
  - left. reflexivity.
  - exact sample_panels_ok.
Defined.

(** The second target of the sample dashboard has neither [datasource] nor
    [refId] nor [format], and its panel no [description]. *)
Example sample_descriptors :
  convertDashboardData sample_engine (JArr sample_panels)
  = Returned
      [ {| datasource := JStr "db"; rawSql := JStr "SELECT 1";
           refId := JStr "A"; format := JStr "table";
           title := JStr "Load"; description := JStr "" |};
        {| datasource := JStr "Unknown"; rawSql := JStr "SELECT 2";
           refId := JStr ""; format := JStr "";
           title := JStr "Load"; description := JStr "" |} ].
Proof.
  reflexivity.
Qed.

(** ** Query Executor *)

(** The claim of C5 as stated fails where the executor's guards apply: the
    descriptor of a target whose [datasource] is the empty string, and the
    descriptor of a target without [datasource] (reference ["Unknown"],
    which the registry rejects), lead to no query request at all. *)
Lemma C5_no_request_counterexample :
  datasource (orders_target [ ("datasource", JStr "") ]) = JStr ""
  /\ issued (queryDataSource sample_engine mixed_world 1
               (orders_target [ ("datasource", JStr "") ])) = []
  /\ datasource (orders_target []) = JStr "Unknown"
  /\ issued (queryDataSource sample_engine mixed_world 1 (orders_target [])) = [].
Proof.
  repeat split.
Qed.

(** C5 (amended). For every descriptor whose data-source reference is
    non-empty and resolves in the registry, the executor issues exactly one
    query request; it carries a single target whose [refId] is the
    descriptor's or ["A"] when that is absent, whose [rawSql] is the
    descriptor's or empty, and whose [format] is the descriptor's or
    ["table"]; its range runs from one hour before the first clock reading
    to the second reading; interval 60000 ms, at most 500 data points, no
    scoped variables, timezone ["browser"]. *)
Theorem C5_single_request (E : Engine) (W : World) (n : nat) (target : Target)
  (ds : DataSource) :
  truthy (datasource target) = true ->
  dataSourceGet W (datasource target) = Resolves ds ->
  exists (request : Query.request) (single : Query.target),
    issued (queryDataSource E W n target) = [request]
    /\ Query.targets request = [single]
    /\ Query.refId single
       = (if is_nullish (refId target) then JStr "A" else refId target)
    /\ Query.rawSql single
       = (if is_nullish (rawSql target) then JStr "" else rawSql target)
    /\ Query.format single
       = (if is_nullish (format target) then JStr "table" else format target)
    /\ Query.range_from request = (fst (clock W n) - 3600000)%Z
    /\ Query.range_to request = snd (clock W n)
    /\ Query.intervalMs request = 60000%Z
    /\ Query.maxDataPoints request = 500%Z
    /\ Query.scopedVars request = []
    /\ Query.timezone request = "browser".
Proof.
  intros Href Hget.
  exists (query_request (clock W n) target).
  exists {| Query.refId := nullish_or (refId target) (JStr "A");
            Query.rawSql := nullish_or (rawSql target) (JStr "");
            Query.format := nullish_or (format target) (JStr "table") |}.
  unfold queryDataSource. rewrite Href, Hget. simpl.
  repeat split.
Qed.

(** A descriptor built by the extractor always has a [refId] and a [format]
    (the empty string at least), so on the path from the extractor the
    request carries the descriptor's own values and neither ["A"] nor
    ["table"] is substituted. *)
Lemma extracted_descriptor_keeps_own (panel target : JsVal) (readings : Z * Z) :
  Query.targets (query_request readings (descriptor panel target))
  = [ {| Query.refId := refId (descriptor panel target);
         Query.rawSql := rawSql (descriptor panel target);
         Query.format := format (descriptor panel target) |} ].
Proof.
  unfold query_request, descriptor, nullish_or. simpl.
  destruct (get_member target "refId"), (get_member target "rawSql"),
    (get_member target "format"); reflexivity.
Qed.

Lemma C5_single_request_witness :
  exists (request : Query.request) (single : Query.target),
    issued (queryDataSource sample_engine
              (world_with [] (Resolves assistant_reply)) 0 db_target) = [request]
    /\ Query.targets request = [single]
    /\ Query.refId single = JStr "A"
    /\ Query.rawSql single = JStr "SELECT 1"
    /\ Query.format single = JStr "table"
    /\ Query.range_from request = 3600000%Z
    /\ Query.range_to request = 7200004%Z
    /\ Query.intervalMs request = 60000%Z
    /\ Query.maxDataPoints request = 500%Z
    /\ Query.scopedVars request = []
    /\ Query.timezone request = "browser".
Proof.
  apply (C5_single_request sample_engine (world_with [] (Resolves assistant_reply))
           0 db_target rows_source); reflexivity.
Defined.

Section ExecutorFacts.

Variable E : Engine.
Variable W : World.

Lemma succeeds_outcome (n : nat) (target : Target) (rows : list JsVal) :
  succeeds E W n target rows ->
  outcome (queryDataSource E W n target) = Resolved (JArr rows).
Proof.
  intros (Href & ds & response & Hget & Hquery & Hrows).
  unfold queryDataSource. rewrite Href, Hget. simpl.
  rewrite Hquery. unfold first_batch. now rewrite Hrows.
Qed.

Lemma caught_failure_outcome (n : nat) (target : Target) :
  caught_failure W n target ->
  outcome (queryDataSource E W n target)
  = Resolved (if truthy (datasource target) then JNull else JUndefined).
Proof.
  unfold queryDataSource.
  intros [Href | [(e & Hget) | (ds & e & Hget & Hquery)]].
  - now rewrite Href.
  - destruct (truthy (datasource target)); simpl; [| reflexivity].
    now rewrite Hget.
  - destruct (truthy (datasource target)); simpl; [| reflexivity].
    rewrite Hget. simpl. now rewrite Hquery.
Qed.

Lemma stream_failure_outcome (n : nat) (target : Target) (e : JsError) :
  stream_failure W n target e ->
  outcome (queryDataSource E W n target) = Rejected e.
Proof.
  intros (Href & ds & Hget & Hquery).
  unfold queryDataSource. rewrite Href, Hget. simpl. now rewrite Hquery.
Qed.

End ExecutorFacts.

(** ** Context Assembler *)

Lemma Promise_all_cons_resolved {A : Type} (a : A) (ps : list (Settled A)) :
  Promise_all (Resolved a :: ps)
  = match Promise_all ps with
    | Resolved values => Resolved (a :: values)
    | Rejected e => Rejected e
    | Pending => Pending
    end.
Proof.
  unfold Promise_all. simpl.
  destruct (first_rejection ps); [reflexivity |].
  destruct (all_resolved ps); reflexivity.
Qed.

Lemma Promise_all_cons_rejected {A : Type} (e : JsError) (ps : list (Settled A)) :
  Promise_all (Rejected e :: ps) = Rejected e.
Proof.
  reflexivity.
Qed.

Lemma map_indexed_length {A B : Type} (f : nat -> A -> B) (xs : list A) :
  forall n : nat, List.length (map_indexed f n xs) = List.length xs.
Proof.
  induction xs as [| x xs IH]; intros n; simpl; [reflexivity | now rewrite IH].
Qed.

Lemma map_indexed_nth {A B : Type} (f : nat -> A -> B) (xs : list A) :
  forall n i : nat,
    nth_error (map_indexed f n xs) i = option_map (f (n + i)) (nth_error xs i).
Proof.
  induction xs as [| x xs IH]; intros n [| i]; simpl; try reflexivity.
  - now rewrite Nat.add_0_r.
  - rewrite IH. now rewrite Nat.add_succ_r.
Qed.

Section AssemblerFacts.

Variable E : Engine.
Variable W : World.

(** When every run resolves, the assembly resolves with one entry per
    descriptor, in order, each holding what its run resolved with. *)
Lemma all_runs_resolved (targets : list Target) :
  forall n : nat,
    (forall (i : nat) (t : Target), nth_error targets i = Some t ->
       exists r : JsVal, outcome (queryDataSource E W (n + i) t) = Resolved r) ->
    Promise_all (map_indexed (panel_run E W) n targets)
    = Resolved (map_indexed
                  (fun m t => panel_entry t
                     (settled_value (outcome (queryDataSource E W m t))))
                  n targets).
Proof.
  induction targets as [| t targets IH]; intros n Hall; simpl.
  - reflexivity.
  - destruct (Hall 0 t eq_refl) as (r & Hr). rewrite Nat.add_0_r in Hr.
    unfold panel_run at 1. rewrite Hr. simpl.
    rewrite Promise_all_cons_resolved, IH.
    + reflexivity.
    + intros i t' Hi. specialize (Hall (S i) t' Hi).
      now rewrite Nat.add_succ_r in Hall.
Qed.

(** One rejecting run rejects the assembly, whatever the other runs do. *)
Lemma one_run_rejected (targets : list Target) :
  forall (n k : nat) (t : Target) (e : JsError),
    nth_error targets k = Some t ->
    outcome (queryDataSource E W (n + k) t) = Rejected e ->
    exists e' : JsError,
      Promise_all (map_indexed (panel_run E W) n targets) = Rejected e'.
Proof.
  induction targets as [| t0 targets IH]; intros n [| k] t e Hnth Hrej;
    simpl in Hnth; try discriminate.
  - inversion Hnth; subst. rewrite Nat.add_0_r in Hrej. simpl.
    unfold panel_run at 1. rewrite Hrej. simpl. now exists e.
  - simpl. rewrite Nat.add_succ_r in Hrej.
    destruct (IH (S n) k t e Hnth Hrej) as (e' & He').
    destruct (panel_run E W n t0) as [a | e0 |] eqn:Hhead.
    + rewrite Promise_all_cons_resolved, He'. now exists e'.
    + now exists e0.
    + unfold Promise_all in *. simpl.
      destruct (first_rejection (map_indexed (panel_run E W) (S n) targets));
        [now eexists | ].
      destruct (all_resolved (map_indexed (panel_run E W) (S n) targets));
        discriminate.
Qed.

End AssemblerFacts.

(** ** Conversation Controller *)

Section ControllerFacts.

Variable E : Engine.
Variable W : World.
Variable options : Options.

(** [fetchDashboard] never rejects: it resolves, or waits for ever on a
    metadata request that is never answered. *)
Lemma fetchDashboard_cases :
  fetchDashboard E W = Pending
  \/ exists dashboardData : list Target, fetchDashboard E W = Resolved dashboardData.
Proof.
  unfold fetchDashboard, fetchDashboard_try.
  destruct (dashboardUID W) as [uid |]; [| right; now eexists].
  destruct (negb (truthy (JStr uid))); [right; now eexists |].
  destruct (backendGet W _) as [dashboardData | e |]; simpl;
    [| right; now eexists | now left].
  destruct (bind _ _) as [converted | e]; simpl; right; now eexists.
Qed.

Lemma fetchDashboard_never_rejects (e : JsError) :
  fetchDashboard E W <> Rejected e.
Proof.
  destruct fetchDashboard_cases as [-> | (dashboardData & ->)]; discriminate.
Qed.

Lemma fetchDashboard_pending :
  fetchDashboard E W = Pending
  <-> exists uid : string,
        dashboardUID W = Some uid /\ uid <> ""
        /\ backendGet W ("/api/dashboards/uid/" ++ uid)%string = Silent.
Proof.
  unfold fetchDashboard, fetchDashboard_try. split.
  - destruct (dashboardUID W) as [uid |]; [| discriminate].
    simpl. destruct (String.eqb_spec uid "") as [-> | Hne]; simpl;
      [discriminate |].
    destruct (backendGet W _) as [dashboardData | e |] eqn:Hget; simpl;
      try discriminate.
    + destruct (bind _ _); discriminate.
    + intros _. now exists uid.
  - intros (uid & -> & Hne & ->). simpl.
    now destruct (String.eqb_spec uid "").
Qed.

(** When the metadata request is answered, [fetchDashboard] resolves. *)
Lemma fetchDashboard_resolves :
  (forall uid : string,
     dashboardUID W = Some uid ->
     backendGet W ("/api/dashboards/uid/" ++ uid)%string <> Silent) ->
  exists dashboardData : list Target, fetchDashboard E W = Resolved dashboardData.
Proof.
  intros Hanswered.
  destruct fetchDashboard_cases as [Hpending | Hresolved]; [| exact Hresolved].
  apply fetchDashboard_pending in Hpending as (uid & Huid & _ & Hsilent).
  now destruct (Hanswered uid Huid).
Qed.

(** No dashboard identifier, a rejected metadata request, a reply without
    [dashboard.panels] to read, or panel data on which the extractor raises:
    each of them gives the empty list. *)
Lemma fetchDashboard_no_uid :
  dashboardUID W = None \/ dashboardUID W = Some "" ->
  fetchDashboard E W = Resolved [].
Proof.
  unfold fetchDashboard, fetchDashboard_try. now intros [-> | ->].
Qed.

Lemma fetchDashboard_request_rejected (uid : string) (e : JsError) :
  dashboardUID W = Some uid ->
  backendGet W ("/api/dashboards/uid/" ++ uid)%string = Rejects e ->
  fetchDashboard E W = Resolved [].
Proof.
  unfold fetchDashboard, fetchDashboard_try. intros -> ->.
  now destruct (negb (truthy (JStr uid))).
Qed.

Lemma fetchDashboard_malformed (uid : string) (dashboardData : JsVal) (e : JsError) :
  dashboardUID W = Some uid ->
  backendGet W ("/api/dashboards/uid/" ++ uid)%string = Resolves dashboardData ->
  (dashboard <- member dashboardData "dashboard" ;;
   panels <- member dashboard "panels" ;;
   convertDashboardData E panels) = Threw e
  \/ (dashboard <- member dashboardData "dashboard" ;;
      panels <- member dashboard "panels" ;;
      convertDashboardData E panels) = Returned [] ->
  fetchDashboard E W = Resolved [].
Proof.
  unfold fetchDashboard, fetchDashboard_try. intros -> -> Hbad.
  destruct (negb (truthy (JStr uid))); [reflexivity |]. simpl.
  now destruct Hbad as [-> | ->].
Qed.

(** The early-return guard is dead: no call of the handler ends there. *)
Lemma guard_never_taken (seen : State) :
  submitQuestion E W options seen <> GuardReturn.
Proof.
  unfold submitQuestion.
  destruct (fetchDashboard E W) as [dashboardData | e |]; try discriminate.
  simpl. destruct (List.length (chat seen) =? 0)%nat; [| discriminate].
  destruct (newPanelData E W dashboardData); discriminate.
Qed.

(** With a non-empty transcript the handler, once [fetchDashboard] has
    settled, appends one user message. *)
Lemma submit_active (seen : State) :
  chat seen <> [] ->
  fetchDashboard E W <> Pending ->
  submitQuestion E W options seen
  = Dispatched (chat seen ++ [ user_message (inputValue seen) ]).
Proof.
  intros Hchat Hsettled. unfold submitQuestion.
  destruct fetchDashboard_cases as [Hp | (dashboardData & ->)]; [contradiction |].
  simpl. destruct (chat seen); [contradiction | reflexivity].
Qed.

(** As long as [fetchDashboard] waits, so does the handler. *)
Lemma submit_waits (seen : State) :
  fetchDashboard E W = Pending -> submitQuestion E W options seen = Stalled.
Proof.
  intros Hp. unfold submitQuestion. now rewrite Hp.
Qed.

(** What a dispatch tells about the call that made it. *)
Lemma submit_dispatched_inv (seen : State) (messages : list JsVal) :
  submitQuestion E W options seen = Dispatched messages ->
  (chat seen = []
   /\ exists (dashboardData : list Target) (panelData : list JsVal),
        fetchDashboard E W = Resolved dashboardData
        /\ newPanelData E W dashboardData = Resolved panelData
        /\ messages = [ system_message E options panelData;
                        user_message (inputValue seen) ])
  \/ (chat seen <> []
      /\ messages = chat seen ++ [ user_message (inputValue seen) ]).
Proof.
  unfold submitQuestion.
  destruct (fetchDashboard E W) as [dashboardData | e |]; try discriminate.
  simpl. destruct (chat seen) as [| m rest]; simpl.
  - destruct (newPanelData E W dashboardData) as [panelData | e |] eqn:Hdata;
      try discriminate.
    intros Heq. inversion Heq. left. split; [reflexivity |].
    now exists dashboardData, panelData.
  - intros Heq. inversion Heq. right. split; [discriminate | reflexivity].
Qed.

(** With an empty transcript the handler follows the assembly. *)
Lemma submit_fresh (seen : State) (dashboardData : list Target) :
  chat seen = [] ->
  fetchDashboard E W = Resolved dashboardData ->
  submitQuestion E W options seen
  = match newPanelData E W dashboardData with
    | Resolved panelData =>
        Dispatched [ system_message E options panelData;
                     user_message (inputValue seen) ]
    | Rejected e => Failed e
    | Pending => Stalled
    end.
Proof.
  intros Hchat Hfetch. unfold submitQuestion. rewrite Hfetch, Hchat. reflexivity.
Qed.

(** Without queryable descriptors no executor runs and the handler goes
    through. *)
Lemma submit_fresh_no_data (seen : State) (dashboardData : list Target) :
  chat seen = [] ->
  fetchDashboard E W = Resolved dashboardData ->
  queryable dashboardData = [] ->
  submitQuestion E W options seen
  = Dispatched [ system_message E options []; user_message (inputValue seen) ].
Proof.
  intros Hchat Hfetch Hnone.
  rewrite (submit_fresh seen dashboardData Hchat Hfetch).
  unfold newPanelData. now rewrite Hnone.
Qed.

(** Whenever the handler reaches its dispatch, the transcript it sets ends
    with the user message just submitted and the input is cleared; whatever
    the completion service does afterwards leaves the input empty, and a
    rejected completion call leaves the transcript as it was set. *)
Lemma dispatched_clears_input (now seen : State) (messages : list JsVal)
  (reply : Settled JsVal) :
  submitQuestion E W options seen = Dispatched messages ->
  inputValue (after_reply (after_submit now (Dispatched messages)) reply) = ""
  /\ exists earlier : list JsVal,
       messages = earlier ++ [ user_message (inputValue seen) ].
Proof.
  intros Hsubmit. split.
  - now destruct reply.
  - unfold submitQuestion in Hsubmit.
    destruct (fetchDashboard E W) as [dashboardData | e |]; try discriminate.
    simpl in Hsubmit.
    destruct (List.length (chat seen) =? 0)%nat.
    + destruct (newPanelData E W dashboardData) as [panelData | e |];
        try discriminate.
      inversion Hsubmit. now exists [ system_message E options panelData ].
    + inversion Hsubmit. now exists (chat seen).
Qed.

Lemma rejected_reply_keeps_transcript (now : State) (messages : list JsVal)
  (e : JsError) :
  fetchGroqData E W options messages = Rejected e ->
  after_reply (after_submit now (Dispatched messages))
              (fetchGroqData E W options messages)
  = {| inputValue := ""; chat := messages |}.
Proof.
  now intros ->.
Qed.

End ControllerFacts.

(** ** One failing executor among N *)

Lemma load_target_succeeds (W : World) (n : nat) :
  dataSourceGet W = sample_registry ->
  succeeds sample_engine W n load_target sample_rows.
Proof.
  intros Hreg. split; [reflexivity |].
  exists rows_source, (JObj [ ("data", sample_frames) ]).
  rewrite Hreg. repeat split.
Qed.

(** The claim of C1 as stated fails in two ways. With a healthy panel next to
    one whose data source the registry does not know, the failing panel's
    entry holds [null], not an empty row sequence. With a healthy panel next
    to one whose query stream signals an error, the whole assembly is
    rejected and the healthy panel's rows are lost with it. *)
Lemma C1_failing_executor_counterexample :
  (fetchDashboard sample_engine mixed_world
   = Resolved [ load_target; orders_target [] ]
   /\ succeeds sample_engine mixed_world 0 load_target sample_rows
   /\ caught_failure mixed_world 1 (orders_target [])
   /\ newPanelData sample_engine mixed_world [ load_target; orders_target [] ]
      = Resolved [ panel_entry load_target (JArr sample_rows);
                   panel_entry (orders_target []) JNull ]
   /\ JNull <> JArr [])
  /\ (fetchDashboard sample_engine broken_world
      = Resolved [ load_target; orders_target [ ("datasource", JStr "broken") ] ]
      /\ succeeds sample_engine broken_world 0 load_target sample_rows
      /\ stream_failure broken_world 1
           (orders_target [ ("datasource", JStr "broken") ])
           (Raised (JStr "relation does not exist"))
      /\ newPanelData sample_engine broken_world
           [ load_target; orders_target [ ("datasource", JStr "broken") ] ]
         = Rejected (Raised (JStr "relation does not exist"))).
Proof.
  split.
  - split; [reflexivity |].
    split; [now apply load_target_succeeds |].
    split; [right; left; eexists; reflexivity |].
    split; [reflexivity | discriminate].
  - split; [reflexivity |].
    split; [now apply load_target_succeeds |].
    split; [| reflexivity].
    split; [reflexivity |].
    exists broken_source. split; reflexivity.
Qed.

(** C1 (amended). Among the N descriptors that survive the filter, let the
    run at position [k] fail in a way the executor handles itself (no
    data-source reference, a reference the registry rejects, a [query] call
    that throws) and let every other run succeed. Then the assembly resolves
    with N entries in descriptor order; each of the N-1 successful entries
    holds its panel's title, description and rows, and the entry at [k] holds
    its panel's title and description with [null] (without a data-source
    reference: [undefined]) in place of rows; a first submit on that
    dashboard serializes its system message from these entries. *)
Theorem C1_one_caught_failure (E : Engine) (W : World)
  (dashboardData : list Target) (k : nat) (failing : Target) :
  nth_error (queryable dashboardData) k = Some failing ->
  caught_failure W k failing ->
  (forall (i : nat) (t : Target),
     i <> k -> nth_error (queryable dashboardData) i = Some t ->
     exists rows : list JsVal, succeeds E W i t rows) ->
  exists entries : list JsVal,
    newPanelData E W dashboardData = Resolved entries
    /\ List.length entries = List.length (queryable dashboardData)
    /\ (forall (i : nat) (t : Target),
          i <> k -> nth_error (queryable dashboardData) i = Some t ->
          exists rows : list JsVal,
            succeeds E W i t rows
            /\ nth_error entries i = Some (panel_entry t (JArr rows)))
    /\ nth_error entries k
       = Some (panel_entry failing
                 (if truthy (datasource failing) then JNull else JUndefined))
    /\ forall (options : Options) (seen : State),
         chat seen = [] ->
         fetchDashboard E W = Resolved dashboardData ->
         submitQuestion E W options seen
         = Dispatched [ system_message E options entries;
                        user_message (inputValue seen) ].
Proof.
  intros Hk Hfail Hothers.
  set (targets := queryable dashboardData) in *.
  assert (Hdata : newPanelData E W dashboardData
                  = Resolved (map_indexed
                      (fun m t => panel_entry t
                         (settled_value (outcome (queryDataSource E W m t))))
                      0 targets)).
  { unfold newPanelData. fold targets. apply all_runs_resolved.
    intros i t Hi. simpl.
    destruct (Nat.eq_dec i k) as [-> | Hneq].
    - rewrite Hk in Hi. inversion Hi; subst.
      rewrite (caught_failure_outcome E W k t Hfail). eauto.
    - destruct (Hothers i t Hneq Hi) as (rows & Hrows).
      rewrite (succeeds_outcome E W i t rows Hrows). eauto. }
  exists (map_indexed
            (fun m t => panel_entry t
               (settled_value (outcome (queryDataSource E W m t))))
            0 targets).
  split; [exact Hdata |].
  split; [apply map_indexed_length |].
  split; [| split].
  - intros i t Hneq Hi.
    destruct (Hothers i t Hneq Hi) as (rows & Hrows).
    exists rows. split; [exact Hrows |].
    rewrite map_indexed_nth, Hi. simpl.
    now rewrite (succeeds_outcome E W i t rows Hrows).
  - rewrite map_indexed_nth, Hk. simpl.
    now rewrite (caught_failure_outcome E W k failing Hfail).
  - intros options seen Hchat Hfetch.
    now rewrite (submit_fresh E W options seen dashboardData Hchat Hfetch), Hdata.
Qed.

Lemma C1_one_caught_failure_witness :
  exists entries : list JsVal,
    newPanelData sample_engine mixed_world [ load_target; orders_target [] ]
    = Resolved entries
    /\ List.length entries = 2
    /\ (forall (i : nat) (t : Target),
          i <> 1 ->
          nth_error (queryable [ load_target; orders_target [] ]) i = Some t ->
          exists rows : list JsVal,
            succeeds sample_engine mixed_world i t rows
            /\ nth_error entries i = Some (panel_entry t (JArr rows)))
    /\ nth_error entries 1 = Some (panel_entry (orders_target []) JNull)
    /\ forall (options : Options) (seen : State),
         chat seen = [] ->
         fetchDashboard sample_engine mixed_world
         = Resolved [ load_target; orders_target [] ] ->
         submitQuestion sample_engine mixed_world options seen
         = Dispatched [ system_message sample_engine options entries;
                        user_message (inputValue seen) ].
Proof.
  apply (C1_one_caught_failure sample_engine mixed_world
           [ load_target; orders_target [] ] 1 (orders_target [])).
  - reflexivity.
  - right. left. eexists. reflexivity.
  - intros [| [| i]] t Hneq Hi; simpl in Hi.
    + inversion Hi; subst. exists sample_rows. now apply load_target_succeeds.
    + contradiction.
    + destruct i; discriminate.
Defined.

(** ** The transcript over time *)

Section TranscriptFacts.

Variable E : Engine.

Lemma starts_with_system_nonempty (transcript : list JsVal) :
  starts_with_system E transcript -> transcript <> [].
Proof.
  intros (m & rest & -> & _). discriminate.
Qed.

Lemma starts_with_system_app (transcript more : list JsVal) :
  starts_with_system E transcript -> starts_with_system E (transcript ++ more).
Proof.
  intros (m & rest & -> & Hm). now exists m, (rest ++ more).
Qed.

Lemma head_ok_nonempty (transcript : list JsVal) :
  head_ok E transcript -> transcript <> [] -> starts_with_system E transcript.
Proof.
  intros [-> | H] Hne; [contradiction | exact H].
Qed.

(** What the handler dispatches starts with a synthesized system message. *)
Lemma submit_starts_with_system (W : World) (options : Options) (seen : State)
  (messages : list JsVal) :
  head_ok E (chat seen) ->
  submitQuestion E W options seen = Dispatched messages ->
  starts_with_system E messages.
Proof.
  intros Hhead Hsubmit.
  destruct (submit_dispatched_inv E W options seen messages Hsubmit)
    as [(_ & dashboardData & panelData & _ & _ & ->) | (Hchat & ->)].
  - exists (system_message E options panelData), [ user_message (inputValue seen) ].
    split; [reflexivity | now exists options, panelData].
  - apply starts_with_system_app.
    now apply head_ok_nonempty.
Qed.

Lemma invariant_mounted : invariant E mounted.
Proof.
  repeat split; simpl; try constructor; try reflexivity. now intros H.
Qed.

Lemma invariant_step (p q : Panel) :
  invariant E p -> step E p q -> invariant E q.
Proof.
  intros (Hui & Hhandlers & Hsent & Hawait) Hstep.
  destruct Hstep as
    [ p text
    | p
    | p W options earlier later seen Hsplit
    | p W options earlier later messages Hsplit ]; unfold invariant; simpl.
  - auto.
  - repeat split; auto.
    apply Forall_app. split; [exact Hhandlers | now constructor].
  - rewrite Hsplit in Hhandlers. apply Forall_app in Hhandlers as [Hearlier Hrest].
    inversion Hrest as [| x l Hseen Hlater]; subst.
    assert (Hkept : Forall (fun s => head_ok E (chat s)) (earlier ++ later))
      by (apply Forall_app; now split).
    destruct (submitQuestion E W options seen) as [| sent_now | e |] eqn:Hsubmit;
      simpl; rewrite ?app_nil_r; auto.
    pose proof (submit_starts_with_system W options seen sent_now Hseen Hsubmit)
      as Hstart.
    repeat split.
    + now right.
    + exact Hkept.
    + apply Forall_app. split; [exact Hsent | now constructor].
    + intros _. now apply starts_with_system_nonempty.
  - assert (Hnonempty : chat (ui p) <> []).
    { apply Hawait. rewrite Hsplit. now destruct earlier. }
    pose proof (head_ok_nonempty _ Hui Hnonempty) as Hstart.
    destruct (fetchGroqData E W options messages) as [reply | e |]; simpl;
      repeat split; auto.
    + right. now apply starts_with_system_app.
    + intros _. apply starts_with_system_nonempty.
      now apply starts_with_system_app.
Qed.

Lemma invariant_reachable (p : Panel) : reachable E p -> invariant E p.
Proof.
  induction 1 as [| p q _ IH Hstep].
  - apply invariant_mounted.
  - now apply (invariant_step p q).
Qed.

(** A step either sends nothing or sends the transcript it has just set. *)
Lemma step_sends_transcript (p q : Panel) :
  step E p q -> sent q = sent p \/ sent q = sent p ++ [chat (ui q)].
Proof.
  intros [ p0 text | p0 | p0 W options earlier later seen _
         | p0 W options earlier later messages _ ]; simpl; auto.
  destruct (submitQuestion E W options seen); simpl; rewrite ?app_nil_r; auto.
Qed.

End TranscriptFacts.

(** C8. In every state the panel can reach, a non-empty transcript has a
    synthesized system message as its element 0 and the rendered list is the
    transcript without that element; every message list ever sent to the
    completion service starts with a synthesized system message and is what
    the request body is serialized from; and every further step (typing,
    pressing send, a resumed handler, an arriving reply) keeps element 0 a
    synthesized system message, a step that sends a request sending the
    transcript it has just set. *)
Theorem C8_system_message_first (E : Engine) (p : Panel) :
  reachable E p ->
  (forall (m : JsVal) (rest : list JsVal),
     chat (ui p) = m :: rest ->
     synthesized E m /\ rendered (chat (ui p)) = rest)
  /\ (forall messages : list JsVal,
        In messages (sent p) ->
        (exists (m : JsVal) (rest : list JsVal),
           messages = m :: rest /\ synthesized E m)
        /\ forall options : Options,
             get_member (completion_payload options messages) "messages"
             = JArr messages
             /\ body (completion_request E options messages)
                = JSON_stringify E (completion_payload options messages) 0)
  /\ (forall q : Panel,
        step E p q ->
        (forall (m : JsVal) (rest : list JsVal),
           chat (ui q) = m :: rest -> synthesized E m)
        /\ (chat (ui p) <> [] -> chat (ui q) <> [])
        /\ (sent q = sent p \/ sent q = sent p ++ [chat (ui q)])).
Proof.
  intros Hreach.
  assert (Hhead : forall r : Panel, invariant E r ->
            forall (m : JsVal) (rest : list JsVal),
              chat (ui r) = m :: rest -> synthesized E m).
  { intros r (Hui & _) m rest Hchat.
    destruct Hui as [Hnil | (m' & rest' & Heq & Hm)].
    - rewrite Hnil in Hchat. discriminate.
    - rewrite Heq in Hchat. now inversion Hchat; subst. }
  pose proof (invariant_reachable E p Hreach) as Hinv.
  split; [| split].
  - intros m rest Hchat. split; [now apply (Hhead p Hinv m rest) |].
    now rewrite Hchat.
  - intros messages Hin. split.
    + destruct Hinv as (_ & _ & Hsent & _).
      rewrite Forall_forall in Hsent. exact (Hsent messages Hin).
    + intros options. split; reflexivity.
  - intros q Hstep. split; [| split].
    + apply Hhead. now apply (invariant_step E p q).
    + intros Hne.
      destruct Hstep as [ p text | p | p W options earlier later seen Hsplit
                        | p W options earlier later messages _ ]; simpl; auto.
      * destruct (submitQuestion E W options seen) as [| sent_now | e |] eqn:Hs;
          simpl; auto.
        destruct Hinv as (_ & Hhandlers & _).
        rewrite Hsplit in Hhandlers.
        apply Forall_app in Hhandlers as [_ Hrest].
        inversion Hrest as [| x l Hseen _]; subst.
        apply (starts_with_system_nonempty E).
        now apply (submit_starts_with_system E W options seen).
      * destruct (fetchGroqData E W options messages); simpl; auto.
        now destruct (chat (ui p)).
    + now apply (step_sends_transcript E).
Qed.

Lemma answered_panel_reachable : reachable sample_engine answered_panel.
Proof.
  apply (reachable_step sample_engine clicked_panel).
  - apply (reachable_step sample_engine typed_panel).
    + apply (reachable_step sample_engine mounted).
      * apply reachable_mounted.
      * apply (step_type sample_engine mounted "How busy?").
    + apply (step_click sample_engine typed_panel).
  - apply (step_submit sample_engine clicked_panel mixed_world sample_options
             [] [] (asking "How busy?")).
    reflexivity.
Qed.

Lemma C8_system_message_first_witness :
  (forall (m : JsVal) (rest : list JsVal),
     chat (ui answered_panel) = m :: rest ->
     synthesized sample_engine m /\ rendered (chat (ui answered_panel)) = rest)
  /\ (forall messages : list JsVal,
        In messages (sent answered_panel) ->
        (exists (m : JsVal) (rest : list JsVal),
           messages = m :: rest /\ synthesized sample_engine m)
        /\ forall options : Options,
             get_member (completion_payload options messages) "messages"
             = JArr messages
             /\ body (completion_request sample_engine options messages)
                = JSON_stringify sample_engine
                    (completion_payload options messages) 0)
  /\ (forall q : Panel,
        step sample_engine answered_panel q ->
        (forall (m : JsVal) (rest : list JsVal),
           chat (ui q) = m :: rest -> synthesized sample_engine m)
        /\ (chat (ui answered_panel) <> [] -> chat (ui q) <> [])
        /\ (sent q = sent answered_panel
            \/ sent q = sent answered_panel ++ [chat (ui q)])).
Proof.
  apply (C8_system_message_first sample_engine answered_panel).
  exact answered_panel_reachable.
Defined.

(** The example run does set a transcript of two messages, the first of
    which is not rendered. *)
Example answered_panel_transcript :
  chat (ui answered_panel)
  = [ system_message sample_engine sample_options
        [ panel_entry load_target (JArr sample_rows);
          panel_entry (orders_target []) JNull ];
      user_message "How busy?" ]
  /\ rendered (chat (ui answered_panel)) = [ user_message "How busy?" ]
  /\ sent answered_panel = [ chat (ui answered_panel) ].
Proof.
  repeat split.
Qed.

(** ** The unawaited executor promise

    [queryDataSource] returns the promise it builds around the stream from
    inside its [try] block without awaiting it, so a stream error rejects the
    returned promise past the [catch] that turns the other failures into
    [null]. [Promise.all] passes the rejection on and the submit handler ends
    at its [await]: no transcript is set, no completion request is sent and
    the input is not cleared. *)

Lemma stream_failure_aborts_submit (E : Engine) (W : World) (options : Options)
  (seen : State) (dashboardData : list Target) (k : nat) (t : Target)
  (e : JsError) :
  chat seen = [] ->
  fetchDashboard E W = Resolved dashboardData ->
  nth_error (queryable dashboardData) k = Some t ->
  stream_failure W k t e ->
  exists e' : JsError,
    submitQuestion E W options seen = Failed e'
    /\ dispatched (submitQuestion E W options seen) = []
    /\ forall now : State, after_submit now (submitQuestion E W options seen) = now.
Proof.
  intros Hchat Hfetch Hk Hstream.
  rewrite (submit_fresh E W options seen dashboardData Hchat Hfetch).
  unfold newPanelData.
  destruct (one_run_rejected E W (queryable dashboardData) 0 k t e Hk
              (stream_failure_outcome E W k t e Hstream)) as (e' & ->).
  exists e'. repeat split.
Qed.

(** The two turns of the controller wherever the dashboard request is
    answered and the assembly resolves. *)
Lemma controller_turns (E : Engine) (W : World) (options : Options) (seen : State) :
  (forall (dashboardData : list Target) (panelData : list JsVal),
     chat seen = [] ->
     fetchDashboard E W = Resolved dashboardData ->
     newPanelData E W dashboardData = Resolved panelData ->
     submitQuestion E W options seen
     = Dispatched [ system_message E options panelData;
                    user_message (inputValue seen) ])
  /\ (chat seen <> [] ->
      fetchDashboard E W <> Pending ->
      submitQuestion E W options seen
      = Dispatched (chat seen ++ [ user_message (inputValue seen) ])).
Proof.
  split.
  - intros dashboardData panelData Hchat Hfetch Hdata.
    now rewrite (submit_fresh E W options seen dashboardData Hchat Hfetch), Hdata.
  - apply submit_active.
Qed.

(** C2. With an empty transcript and the input ["How busy?"], on a dashboard
    whose second panel's query stream signals an error, the handler is
    rejected at [Promise.all]: the transcript is not set to a system and a
    user message, it stays empty. *)
Theorem C2_first_turn_not_set :
  fetchDashboard sample_engine broken_world
  = Resolved [ load_target; orders_target [ ("datasource", JStr "broken") ] ]
  /\ submitQuestion sample_engine broken_world sample_options (asking "How busy?")
     = Failed (Raised (JStr "relation does not exist"))
  /\ chat (after_submit (asking "How busy?")
             (submitQuestion sample_engine broken_world sample_options
                (asking "How busy?"))) = [].
Proof.
  repeat split.
Qed.

(** C7. In the same situation the handler ends before it sends anything to
    the completion service and before it resets the input: after the submit
    the input buffer still holds the text that was typed. *)
Theorem C7_input_not_cleared :
  dispatched (submitQuestion sample_engine broken_world sample_options
                (asking "How busy?")) = []
  /\ inputValue (after_submit (asking "How busy?")
                   (submitQuestion sample_engine broken_world sample_options
                      (asking "How busy?")))
     = "How busy?"
  /\ inputValue (after_submit (asking "How busy?")
                   (submitQuestion sample_engine broken_world sample_options
                      (asking "How busy?")))
     <> "".
Proof.
  split; [reflexivity |].
  split; [reflexivity | discriminate].
Qed.

(** C9. In the same situation [fetchDashboard] has resolved with an array and
    the guard is not taken, yet the submit builds no messages and sends no
    completion request. *)
Theorem C9_submit_without_dispatch :
  (exists dashboardData : list Target,
     fetchDashboard sample_engine broken_world = Resolved dashboardData
     /\ truthy (JArr (map target_object dashboardData)) = true)
  /\ submitQuestion sample_engine broken_world sample_options (asking "How busy?")
     <> GuardReturn
  /\ dispatched (submitQuestion sample_engine broken_world sample_options
                   (asking "How busy?")) = [].
Proof.
  split; [eexists; split; reflexivity |].
  split; [discriminate | reflexivity].
Qed.

(** ** Further examples *)

(** The scenario of the specification: one descriptor, one query, one entry. *)
Example scenario_one_query :
  fetchDashboard sample_engine scenario_world = Resolved [ load_target ]
  /\ List.length (issued_queries sample_engine scenario_world [ load_target ]) = 1
  /\ newPanelData sample_engine scenario_world [ load_target ]
     = Resolved [ panel_entry load_target (JArr sample_rows) ].
Proof.
  repeat split.
Qed.

(** Once a first column named [__proto__] has written [null], the record
    inherits from nothing and the next write of that name makes a property. *)
Example proto_column_after_null :
  convertGrafanaDataToJson sample_engine proto_twice_frames
  = Returned [ JObj [ ("__proto__", JNum 5) ] ].
Proof.
  reflexivity.
Qed.

(** A later field that is an array has no [name], and its [values] is the
    method arrays inherit: the cell is [undefined] under the key
    [undefined], and nothing is raised. *)
Example array_field_adds_undefined :
  convertGrafanaDataToJson naming_engine array_field_frames
  = Returned [ JObj [ ("id", JNum 1); ("undefined", JUndefined) ] ].
Proof.
  reflexivity.
Qed.

(** A batch on which the normalizer raises leaves the executor's promise
    unsettled, and the submit with it. *)
Example raising_batch_stalls :
  first_batch sample_engine
    (Emits (JObj [ ("data",
       JArr [ JObj [ ("fields",
         JArr [ JObj [ ("name", JStr "id"); ("values", JArr [JNum 1]) ];
                JNull ]) ] ]) ]))
  = Pending.
Proof.
  reflexivity.
Qed.

(** * Properties of the code beyond the specification's claims *)

(** ** Writing a cell: [row[key] = value] *)

Lemma replace_prop_keys (props : list (string * JsVal)) (key : string) (v : JsVal) :
  map fst (replace_prop props key v) = map fst props.
Proof.
  induction props as [| [k x] rest IH]; simpl; [reflexivity |].
  destruct (k =? key); simpl; [reflexivity | now rewrite IH].
Qed.

Lemma own_prop_replace_same (props : list (string * JsVal)) (key : string)
  (v x : JsVal) :
  own_prop props key = Some x -> own_prop (replace_prop props key v) key = Some v.
Proof.
  induction props as [| [k y] rest IH]; simpl; [discriminate |].
  destruct (k =? key) eqn:Hk; simpl; rewrite Hk; auto.
Qed.

Lemma own_prop_replace_other (props : list (string * JsVal)) (key other : string)
  (v : JsVal) :
  other <> key ->
  own_prop (replace_prop props key v) other = own_prop props other.
Proof.
  intros Hneq. induction props as [| [k y] rest IH]; simpl; [reflexivity |].
  destruct (String.eqb_spec k key) as [-> | Hk]; simpl.
  - destruct (String.eqb_spec key other) as [<- | _]; [contradiction | reflexivity].
  - destruct (k =? other); [reflexivity | exact IH].
Qed.

Lemma own_prop_app_fresh (props : list (string * JsVal)) (key other : string)
  (v : JsVal) :
  own_prop (props ++ [(key, v)]) other
  = match own_prop props other with
    | Some x => Some x
    | None => if key =? other then Some v else None
    end.
Proof.
  induction props as [| [k y] rest IH]; simpl; [reflexivity |].
  destruct (k =? other); [reflexivity | exact IH].
Qed.

Lemma own_prop_present (props : list (string * JsVal)) (key : string) :
  In key (map fst props) <-> own_prop props key <> None.
Proof.
  induction props as [| [k y] rest IH]; simpl.
  - split; [contradiction | congruence].
  - destruct (String.eqb_spec k key) as [-> | Hk].
    + split; [discriminate | now left].
    + rewrite <- IH. split; [intros [H | H]; [contradiction | exact H] | now right].
Qed.

(** What is read back after a write of an own property. *)
Lemma own_prop_put_own (props : list (string * JsVal)) (key other : string)
  (v : JsVal) :
  own_prop (put_own props key v) other
  = if key =? other then Some v else own_prop props other.
Proof.
  unfold put_own.
  destruct (own_prop props key) as [x |] eqn:Hown.
  - destruct (String.eqb_spec key other) as [<- | Hneq].
    + now apply (own_prop_replace_same props key v x).
    + apply own_prop_replace_other. congruence.
  - rewrite own_prop_app_fresh.
    destruct (String.eqb_spec key other) as [<- | _].
    + now rewrite Hown.
    + now destruct (own_prop props other).
Qed.

Lemma put_own_keys (props : list (string * JsVal)) (key : string) (v : JsVal) :
  NoDup (map fst props) ->
  NoDup (map fst (put_own props key v))
  /\ forall k : string,
       In k (map fst (put_own props key v)) <-> In k (map fst props) \/ k = key.
Proof.
  intros Hnd. unfold put_own.
  destruct (own_prop props key) as [x |] eqn:Hown.
  - rewrite replace_prop_keys. split; [exact Hnd |].
    intros k. split; [now left |].
    intros [H | ->]; [exact H |].
    apply own_prop_present. congruence.
  - rewrite map_app. simpl. split.
    + apply NoDup_app; [exact Hnd | repeat constructor; now intros [] |].
      intros k Hk [<- | []].
      apply own_prop_present in Hk. congruence.
    + intros k. rewrite in_app_iff. simpl. split.
      * intros [H | [<- | []]]; [now left | now right].
      * intros [H | ->]; [now left | right; now left].
Qed.

Lemma write_cells_spec (cols : list (string * list JsVal)) (i : nat) :
  forall row : list (string * JsVal),
    NoDup (map fst row) ->
    NoDup (map fst (write_cells cols i row))
    /\ (forall k : string,
          In k (map fst (write_cells cols i row))
          <-> In k (map fst row) \/ In k (map fst cols))
    /\ (forall k : string,
          own_prop (write_cells cols i row) k
          = match last_column cols k with
            | Some values => Some (nth i values JUndefined)
            | None => own_prop row k
            end).
Proof.
  induction cols as [| [name values] rest IH]; intros row Hnd; simpl.
  - split; [exact Hnd |]. split; [| reflexivity].
    intros k. split; [now left | intros [H | []]; exact H].
  - destruct (put_own_keys row name (nth i values JUndefined) Hnd) as [Hnd' Hkeys].
    destruct (IH _ Hnd') as (Hnd'' & Hin & Hown).
    split; [exact Hnd'' |]. split.
    + intros k. rewrite (Hin k), (Hkeys k). split.
      * intros [[H | ->] | H]; auto.
      * intros [H | [<- | H]]; auto.
    + intros k. rewrite (Hown k).
      destruct (last_column rest k); [reflexivity |].
      simpl. rewrite own_prop_put_own. now destruct (name =? k).
Qed.

Section NormalizerBeyond.

Variable E : Engine.

Lemma for_each_column (i : nat) (fields : list JsVal)
  (cols : list (string * list JsVal)) :
  columns fields cols ->
  ~ In "__proto__" (map fst cols) ->
  forall row : PlainObject,
    for_of (assign_cell E i) fields row
    = Returned {| own := write_cells cols i (own row); proto := proto row |}.
Proof.
  induction 1 as [| field [name values] fields cols Hcol _ IH];
    intros Hproto row; simpl.
  - now destruct row.
  - simpl in Hproto.
    rewrite (assign_cell_column E i row field name values Hcol). simpl.
    rewrite set_prop_ordinary by (intros ->; apply Hproto; now left).
    rewrite IH; [reflexivity |].
    intros Hin. apply Hproto. now right.
Qed.

Lemma row_loop_written (fields : list JsVal) (cols : list (string * list JsVal)) :
  columns fields cols ->
  ~ In "__proto__" (map fst cols) ->
  forall (todo start : nat) (result : list JsVal),
    row_loop E fields todo start result
    = Returned (result ++ map (fun i => JObj (write_cells cols i [])) (seq start todo)).
Proof.
  intros Hcols Hproto. induction todo as [| todo IH]; intros start result; simpl.
  - now rewrite app_nil_r.
  - unfold build_row.
    rewrite (for_each_column start fields cols Hcols Hproto). simpl.
    rewrite IH, <- app_assoc. reflexivity.
Qed.

Lemma normalizer_written (frame : JsVal) (others fields : list JsVal)
  (cols : list (string * list JsVal)) :
  opt_member frame "fields" = JArr fields ->
  columns fields cols ->
  ~ In "__proto__" (map fst cols) ->
  convertGrafanaDataToJson E (JArr (frame :: others))
  = Returned (map (fun i => JObj (write_cells cols i [])) (seq 0 (first_length cols))).
Proof.
  intros Hfields Hcols Hproto. unfold convertGrafanaDataToJson. simpl.
  rewrite Hfields. simpl.
  rewrite (rowCount_columns fields cols Hcols). simpl.
  rewrite Nat2Z.id.
  now rewrite (row_loop_written fields cols Hcols Hproto).
Qed.

(** A throwing element makes the whole loop throw. *)
Lemma for_of_throws {A B : Type} (body : B -> A -> Outcome B) (bad : A)
  (xs : list A) :
  (forall acc : B, exists e : JsError, body acc bad = Threw e) ->
  In bad xs ->
  forall acc : B, exists e : JsError, for_of body xs acc = Threw e.
Proof.
  intros Hbad. induction xs as [| x xs IH]; intros Hin acc; simpl.
  - contradiction.
  - destruct (body acc x) as [acc' | e] eqn:Hx; simpl.
    + destruct Hin as [-> | Hin].
      * destruct (Hbad acc) as (e & He). congruence.
      * now apply IH.
    + now exists e.
Qed.

Lemma assign_cell_throws (i : nat) (row : PlainObject) (field : JsVal) :
  is_nullish field = true
  \/ (isArray field = false /\ is_nullish (get_member field "values") = true) ->
  assign_cell E i row field = Threw TypeError.
Proof.
  intros Hbad. unfold assign_cell, member, member_read.
  destruct (is_nullish field) eqn:Hfield; simpl; [reflexivity |].
  destruct Hbad as [Hf | [Harr Hv]]; [discriminate |].
  assert (Hread : read field "values" = Value (get_member field "values"))
    by (destruct field; try reflexivity; discriminate).
  rewrite Hread. unfold at_index, index. now rewrite Hv.
Qed.

End NormalizerBeyond.

(** X1. When no column of frame 0 is called [__proto__], every record the
    normalizer returns has distinct keys, exactly the column names, and under
    each key the value of the last column of that name: a repeated name does
    not add a key, the later column overwrites the earlier one. *)
Theorem normalizer_last_column_wins (E : Engine) (frame : JsVal)
  (others fields : list JsVal) (cols : list (string * list JsVal)) :
  opt_member frame "fields" = JArr fields ->
  columns fields cols ->
  ~ In "__proto__" (map fst cols) ->
  exists rows : list JsVal,
    convertGrafanaDataToJson E (JArr (frame :: others)) = Returned rows
    /\ List.length rows = first_length cols
    /\ forall i : nat, i < first_length cols ->
         exists props : list (string * JsVal),
           nth_error rows i = Some (JObj props)
           /\ NoDup (map fst props)
           /\ (forall name : string,
                 In name (map fst props) <-> In name (map fst cols))
           /\ (forall name : string,
                 own_prop props name
                 = option_map (fun values => nth i values JUndefined)
                     (last_column cols name)).
Proof.
  intros Hfields Hcols Hproto.
  exists (map (fun i => JObj (write_cells cols i [])) (seq 0 (first_length cols))).
  split; [now apply (normalizer_written E frame others fields cols) |].
  split; [now rewrite length_map, length_seq |].
  intros i Hi. exists (write_cells cols i []).
  destruct (write_cells_spec cols i [] (NoDup_nil _)) as (Hnd & Hin & Hown).
  split.
  { rewrite nth_error_map, nth_error_seq.
    destruct (Nat.ltb_spec i (first_length cols)); [reflexivity | lia]. }
  split; [exact Hnd |]. split.
  - intros name. rewrite (Hin name). simpl. tauto.
  - intros name. rewrite (Hown name).
    now destruct (last_column cols name).
Qed.

Lemma normalizer_last_column_wins_witness :
  exists rows : list JsVal,
    convertGrafanaDataToJson sample_engine
      (JArr [ JObj [ ("fields", JArr twice_fields) ] ]) = Returned rows
    /\ List.length rows = 2
    /\ forall i : nat, i < 2 ->
         exists props : list (string * JsVal),
           nth_error rows i = Some (JObj props)
           /\ NoDup (map fst props)
           /\ (forall name : string,
                 In name (map fst props) <-> In name (map fst twice_columns))
           /\ (forall name : string,
                 own_prop props name
                 = option_map (fun values => nth i values JUndefined)
                     (last_column twice_columns name)).
Proof.
  apply (normalizer_last_column_wins sample_engine
           (JObj [ ("fields", JArr twice_fields) ]) [] twice_fields twice_columns).
  - reflexivity.
  - repeat constructor.
  - simpl. intuition discriminate.
Defined.

(** X2. The normalizer returns the empty sequence, without raising, on every
    input its guards turn away: a value that is not an array, the empty
    array, and a frame list whose frame 0 has no [fields] array. *)
Theorem normalizer_turns_away (E : Engine) (data : JsVal) :
  isArray data = false
  \/ data = JArr []
  \/ (exists (frame : JsVal) (others : list JsVal),
        data = JArr (frame :: others)
        /\ isArray (opt_member frame "fields") = false) ->
  convertGrafanaDataToJson E data = Returned [].
Proof.
  intros [Hnot | [-> | (frame & others & -> & Hfields)]];
    unfold convertGrafanaDataToJson.
  - rewrite Hnot. now destruct (truthy data).
  - reflexivity.
  - simpl. rewrite Hfields.
    now destruct (truthy (opt_member frame "fields")).
Qed.

Lemma normalizer_turns_away_witness :
  convertGrafanaDataToJson sample_engine (JArr [ JObj [ ("fields", JStr "none") ] ])
  = Returned [].
Proof.
  apply (normalizer_turns_away sample_engine).
  right. right. exists (JObj [ ("fields", JStr "none") ]), []. split; reflexivity.
Defined.

(** X3. The normalizer does raise: when the first column has at least one
    value and some later field of frame 0 is [null] or [undefined], or is
    not an array and has no [values], building the first record throws and
    nothing is returned. *)
Theorem normalizer_raises (E : Engine) (frame first bad : JsVal)
  (others rest : list JsVal) (name : string) (values : list JsVal) :
  opt_member frame "fields" = JArr (first :: rest) ->
  column first name values ->
  values <> [] ->
  In bad rest ->
  is_nullish bad = true
  \/ (isArray bad = false /\ is_nullish (get_member bad "values") = true) ->
  exists e : JsError,
    convertGrafanaDataToJson E (JArr (frame :: others)) = Threw e.
Proof.
  intros Hfields Hfirst Hrows Hin Hbad.
  unfold convertGrafanaDataToJson. simpl. rewrite Hfields. simpl.
  assert (Hcols : Forall2 (fun field col => column field (fst col) (snd col))
                    [first] [(name, values)])
    by (constructor; [exact Hfirst | constructor]).
  assert (Hcount : rowCount (JArr (first :: rest))
                   = JNum (Z.of_nat (List.length values))).
  { pose proof (rowCount_columns [first] [(name, values)] Hcols) as Hone.
    unfold rowCount in *. simpl in *. exact Hone. }
  rewrite Hcount. simpl. rewrite Nat2Z.id.
  destruct values as [| v values]; [contradiction |]. simpl.
  unfold build_row.
  destruct (for_of_throws (assign_cell E 0) bad (first :: rest))
    with (acc := empty_object) as (e & He).
  - intros acc. exists TypeError. now apply assign_cell_throws.
  - now right.
  - rewrite He. now exists e.
Qed.

Lemma normalizer_raises_witness :
  exists e : JsError,
    convertGrafanaDataToJson sample_engine
      (JArr [ JObj [ ("fields", JArr ragged_fields) ] ]) = Threw e.
Proof.
  apply (normalizer_raises sample_engine (JObj [ ("fields", JArr ragged_fields) ])
           (JObj [ ("name", JStr "id"); ("values", JArr [JNum 1]) ])
           (JObj [ ("name", JStr "city") ]) []
           [ JObj [ ("name", JStr "city") ] ] "id" [JNum 1]).
  - reflexivity.
  - repeat split.
  - discriminate.
  - now left.
  - right. split; reflexivity.
Defined.

(** ** The extractor on malformed input *)

Lemma for_of_only_throws {A B : Type} (body : B -> A -> Outcome B) (err : JsError)
  (xs : list A) :
  (forall (acc : B) (x : A) (e : JsError), body acc x = Threw e -> e = err) ->
  forall (acc : B) (e : JsError), for_of body xs acc = Threw e -> e = err.
Proof.
  intros Hbody. induction xs as [| x xs IH]; intros acc e; simpl.
  - discriminate.
  - destruct (body acc x) as [acc' | e'] eqn:Hx; simpl.
    + apply IH.
    + intros Heq. inversion Heq; subst. now apply (Hbody acc x).
Qed.

Lemma push_target_only_TypeError (panel : JsVal) (response : list Target)
  (target : JsVal) (e : JsError) :
  push_target panel response target = Threw e -> e = TypeError.
Proof.
  unfold push_target, member.
  destruct (is_nullish target), (is_nullish panel); simpl; congruence.
Qed.

Lemma visit_panel_only_TypeError (response : list Target) (panel : JsVal)
  (e : JsError) :
  visit_panel response panel = Threw e -> e = TypeError.
Proof.
  unfold visit_panel, member. destruct (is_nullish panel); simpl; [congruence |].
  destruct (negb (truthy (get_member panel "targets"))
            || negb (isArray (get_member panel "targets"))); [discriminate |].
  apply for_of_only_throws. intros acc x e'. apply push_target_only_TypeError.
Qed.

Lemma visit_panel_breaking (response : list Target) (panel : JsVal) :
  breaking_panel panel ->
  exists e : JsError, visit_panel response panel = Threw e.
Proof.
  intros [Hnull | (target & Hin & Hnull)]; unfold visit_panel, member.
  - rewrite Hnull. now exists TypeError.
  - destruct (is_nullish panel); simpl; [now exists TypeError |].
    unfold target_list in Hin.
    destruct (get_member panel "targets") as [| | b | n | s | items | props];
      simpl in Hin; try contradiction.
    simpl. apply (for_of_throws (push_target panel) target items); [| exact Hin].
    intros acc. exists TypeError. unfold push_target, member. now rewrite Hnull.
Qed.

(** X4. The extractor returns the empty sequence, without raising, when its
    input is a text that does not parse, a text that parses to something
    other than an array, or a value that is neither a text nor an array. *)
Theorem extractor_falls_back (E : Engine) (input : JsVal) :
  (exists text : string,
     input = JStr text
     /\ (JSON_parse E text = None
         \/ exists v : JsVal, JSON_parse E text = Some v /\ isArray v = false))
  \/ (isArray input = false /\ forall text : string, input <> JStr text) ->
  convertDashboardData E input = Returned [].
Proof.
  unfold convertDashboardData.
  intros [(text & -> & [-> | (v & -> & Hv)]) | [Hnot Hstr]].
  - reflexivity.
  - now rewrite Hv.
  - destruct input; try reflexivity.
    + exfalso. now apply (Hstr s).
    + discriminate.
Qed.

Lemma extractor_falls_back_witness :
  convertDashboardData sample_engine (JStr "{not json") = Returned [].
Proof.
  apply (extractor_falls_back sample_engine).
  left. exists "{not json". split; [reflexivity | now left].
Defined.

Lemma extractor_only_TypeError (E : Engine) (input : JsVal) (e : JsError) :
  convertDashboardData E input = Threw e -> e = TypeError.
Proof.
  unfold convertDashboardData.
  destruct (match input with JStr text => JSON_parse E text | _ => Some input end)
    as [panels |]; [| discriminate].
  destruct (negb (isArray panels)); [discriminate |].
  apply for_of_only_throws. intros acc x e'. apply visit_panel_only_TypeError.
Qed.

Lemma extractor_breaks (E : Engine) (input : JsVal) (panels : list JsVal)
  (bad : JsVal) :
  presented E input panels ->
  In bad panels ->
  breaking_panel bad ->
  convertDashboardData E input = Threw TypeError.
Proof.
  intros Hin Hbad Hbreak.
  assert (Hthrows : exists e : JsError, convertDashboardData E input = Threw e).
  { unfold convertDashboardData.
    destruct Hin as [-> | (text & -> & ->)]; simpl;
      apply (for_of_throws visit_panel bad panels); auto;
      intros acc; now apply visit_panel_breaking. }
  destruct Hthrows as (e & He).
  now rewrite He, (extractor_only_TypeError E input e He).
Qed.

(** X5. The only error the extractor raises is a [TypeError], and it raises
    one whenever the panel list holds a panel that is [null] or [undefined]
    or that has such a target: the descriptors of the panels visited before
    are then not returned. *)
Theorem extractor_raises_TypeError (E : Engine) (input : JsVal) :
  (forall e : JsError, convertDashboardData E input = Threw e -> e = TypeError)
  /\ forall (panels : list JsVal) (bad : JsVal),
       presented E input panels ->
       In bad panels ->
       breaking_panel bad ->
       convertDashboardData E input = Threw TypeError.
Proof.
  split.
  - apply extractor_only_TypeError.
  - apply extractor_breaks.
Qed.

Lemma extractor_raises_TypeError_witness :
  convertDashboardData sample_engine (JArr [ load_panel; JNull ]) = Threw TypeError.
Proof.
  apply (extractor_raises_TypeError sample_engine (JArr [ load_panel; JNull ]))
    with (panels := [ load_panel; JNull ]) (bad := JNull).
  - now left.
  - right. now left.
  - now left.
Defined.

(** X6. A breaking panel anywhere in the dashboard costs the whole dashboard:
    [fetchDashboard] swallows the extractor's error and resolves with the
    empty list, so a first submit goes out with a context serialized from no
    panel at all. *)
Theorem breaking_panel_empties_dashboard (E : Engine) (W : World)
  (options : Options) (uid : string) (panels : list JsVal) (bad : JsVal)
  (seen : State) :
  dashboardUID W = Some uid ->
  backendGet W ("/api/dashboards/uid/" ++ uid)%string
  = Resolves (dashboard_reply (JArr panels)) ->
  In bad panels ->
  breaking_panel bad ->
  fetchDashboard E W = Resolved []
  /\ (chat seen = [] ->
      submitQuestion E W options seen
      = Dispatched [ system_message E options [];
                     user_message (inputValue seen) ]).
Proof.
  intros Huid Hget Hin Hbreak.
  assert (Hfetch : fetchDashboard E W = Resolved []).
  { apply (fetchDashboard_malformed E W uid (dashboard_reply (JArr panels)) TypeError);
      auto.
    left. simpl.
    apply (extractor_breaks E (JArr panels) panels bad); auto. now left. }
  split; [exact Hfetch |].
  intros Hchat. now apply (submit_fresh_no_data E W options seen []).
Qed.

Lemma breaking_panel_empties_dashboard_witness :
  fetchDashboard sample_engine (world_with [ load_panel; JNull ] (Resolves assistant_reply))
  = Resolved []
  /\ (chat (asking "How busy?") = [] ->
      submitQuestion sample_engine
        (world_with [ load_panel; JNull ] (Resolves assistant_reply))
        sample_options (asking "How busy?")
      = Dispatched [ system_message sample_engine sample_options [];
                     user_message (inputValue (asking "How busy?")) ]).
Proof.
  apply (breaking_panel_empties_dashboard sample_engine
           (world_with [ load_panel; JNull ] (Resolves assistant_reply))
           sample_options "d1" [ load_panel; JNull ] JNull (asking "How busy?")).
  - reflexivity.
  - reflexivity.
  - right. now left.
  - now left.
Defined.

(** ** From the extractor to the executor *)

Lemma filter_map_swap {A B : Type} (f : B -> bool) (g : A -> B) (xs : list A) :
  filter f (map g xs) = map g (filter (fun x => f (g x)) xs).
Proof.
  induction xs as [| x xs IH]; simpl; [reflexivity |].
  destruct (f (g x)); simpl; now rewrite IH.
Qed.

Lemma truthy_nullish_or_empty (v : JsVal) :
  truthy (nullish_or v (JStr "")) = truthy v.
Proof.
  now destruct v.
Qed.

Lemma queryable_descriptors (panels : list JsVal) :
  queryable (descriptors_of panels)
  = flat_map (fun panel => map (descriptor panel) (queried_targets panel)) panels.
Proof.
  unfold queryable, descriptors_of, queried_targets.
  induction panels as [| panel panels IH]; simpl; [reflexivity |].
  rewrite filter_app, IH, filter_map_swap. f_equal.
  f_equal. apply filter_ext. intros target. simpl. apply truthy_nullish_or_empty.
Qed.

(** X7. Of the descriptors the extractor emits, the executor is run on
    exactly those whose target carries a non-empty [rawSql], in the order of
    the dashboard; a target without [rawSql] is emitted with the empty string
    and never queried. *)
Theorem only_raw_queries_run (E : Engine) (input : JsVal) (panels : list JsVal) :
  presented E input panels ->
  Forall panel_ok panels ->
  exists out : list Target,
    convertDashboardData E input = Returned out
    /\ queryable out
       = flat_map (fun panel => map (descriptor panel) (queried_targets panel))
           panels.
Proof.
  intros Hin Hok. exists (descriptors_of panels).
  split; [now apply extractor_descriptors | apply queryable_descriptors].
Qed.

Lemma only_raw_queries_run_witness :
  exists out : list Target,
    convertDashboardData sample_engine (JArr sample_panels) = Returned out
    /\ queryable out
       = flat_map (fun panel => map (descriptor panel) (queried_targets panel))
           sample_panels.
Proof.
  apply (only_raw_queries_run sample_engine (JArr sample_panels) sample_panels).
  - now left.
  - exact sample_panels_ok.
Defined.

Lemma nullish_or_defined (v d : JsVal) :
  is_nullish d = false -> is_nullish (nullish_or v d) = false.
Proof.
  intros Hd. unfold nullish_or. now destruct (is_nullish v) eqn:Hv.
Qed.

(** X8. No field of an emitted descriptor is [null] or [undefined]. The
    executor's own defaults therefore never apply to a descriptor that comes
    from the extractor: the request carries the descriptor's [refId] and
    [format] as they are, the empty string for a target that had none, and
    not ["A"] or ["table"]. *)
Theorem extracted_fields_defined (E : Engine) (input : JsVal)
  (panels : list JsVal) :
  presented E input panels ->
  Forall panel_ok panels ->
  exists out : list Target,
    convertDashboardData E input = Returned out
    /\ forall d : Target, In d out ->
         is_nullish (datasource d) = false
         /\ is_nullish (rawSql d) = false
         /\ is_nullish (refId d) = false
         /\ is_nullish (format d) = false
         /\ is_nullish (title d) = false
         /\ is_nullish (description d) = false
         /\ forall readings : Z * Z,
              Query.targets (query_request readings d)
              = [ {| Query.refId := refId d;
                     Query.rawSql := rawSql d;
                     Query.format := format d |} ].
Proof.
  intros Hin Hok. exists (descriptors_of panels).
  split; [now apply extractor_descriptors |].
  intros d Hd. unfold descriptors_of in Hd.
  apply in_flat_map in Hd as (panel & _ & Hd).
  apply in_map_iff in Hd as (target & <- & _).
  repeat split; try (now apply nullish_or_defined).
  intros readings. apply extracted_descriptor_keeps_own.
Qed.

Lemma extracted_fields_defined_witness :
  exists out : list Target,
    convertDashboardData sample_engine (JArr sample_panels) = Returned out
    /\ forall d : Target, In d out ->
         is_nullish (datasource d) = false
         /\ is_nullish (rawSql d) = false
         /\ is_nullish (refId d) = false
         /\ is_nullish (format d) = false
         /\ is_nullish (title d) = false
         /\ is_nullish (description d) = false
         /\ forall readings : Z * Z,
              Query.targets (query_request readings d)
              = [ {| Query.refId := refId d;
                     Query.rawSql := rawSql d;
                     Query.format := format d |} ].
Proof.
  apply (extracted_fields_defined sample_engine (JArr sample_panels) sample_panels).
  - now left.
  - exact sample_panels_ok.
Defined.

(** ** The executor's requests and the fate of its promise *)

(** X9. One run of the executor issues at most one query request, and none
    exactly when the descriptor's data-source reference is empty or the
    registry rejects it or never answers. *)
Theorem executor_request_count (E : Engine) (W : World) (n : nat) (target : Target) :
  List.length (issued (queryDataSource E W n target)) <= 1
  /\ (issued (queryDataSource E W n target) = []
      <-> truthy (datasource target) = false
          \/ (exists e : JsError, dataSourceGet W (datasource target) = Rejects e)
          \/ dataSourceGet W (datasource target) = Silent).
Proof.
  unfold queryDataSource.
  destruct (truthy (datasource target)) eqn:Href; simpl.
  - destruct (dataSourceGet W (datasource target)) as [ds | e |] eqn:Hget; simpl.
    + split; [lia |]. split; [discriminate |].
      intros [H | [(e & H) | H]]; discriminate.
    + split; [lia |]. split; [| reflexivity]. intros _. right. left. now exists e.
    + split; [lia |]. split; [| reflexivity]. intros _. now do 2 right.
  - split; [lia |]. split; [now left | reflexivity].
Qed.

Lemma outcome_rejected_inv (E : Engine) (W : World) (n : nat) (target : Target)
  (e : JsError) :
  outcome (queryDataSource E W n target) = Rejected e ->
  stream_failure W n target e.
Proof.
  unfold queryDataSource, stream_failure.
  destruct (truthy (datasource target)); simpl; [| discriminate].
  destruct (dataSourceGet W (datasource target)) as [ds | e' |]; simpl;
    [| discriminate | discriminate].
  destruct (query ds (query_request (clock W n) target)) as [e' | [response | err]]
    eqn:Hquery; simpl; try discriminate.
  - destruct (bind _ _); discriminate.
  - intros Heq. inversion Heq; subst. split; [reflexivity |].
    exists ds. now split.
Qed.

Lemma outcome_rows_inv (E : Engine) (W : World) (n : nat) (target : Target)
  (rows : list JsVal) :
  outcome (queryDataSource E W n target) = Resolved (JArr rows) ->
  succeeds E W n target rows.
Proof.
  unfold queryDataSource, succeeds.
  destruct (truthy (datasource target)); simpl; [| discriminate].
  destruct (dataSourceGet W (datasource target)) as [ds | e' |]; simpl;
    [| discriminate | discriminate].
  destruct (query ds (query_request (clock W n) target)) as [e' | [response | err]]
    eqn:Hquery; simpl; try discriminate.
  destruct (bind _ _) as [result | e'] eqn:Hrows; [| discriminate].
  intros Heq. inversion Heq; subst. split; [reflexivity |].
  exists ds, response. now repeat split.
Qed.

(** X10. The promise the executor returns is rejected exactly when the
    stream signals an error, and then with that error; it resolves with an
    array of rows exactly when the run succeeds; in every other case it
    resolves with [null] or [undefined] or stays unsettled. *)
Theorem executor_fate (E : Engine) (W : World) (n : nat) (target : Target) :
  (forall e : JsError,
     outcome (queryDataSource E W n target) = Rejected e
     <-> stream_failure W n target e)
  /\ (forall rows : list JsVal,
        outcome (queryDataSource E W n target) = Resolved (JArr rows)
        <-> succeeds E W n target rows)
  /\ (outcome (queryDataSource E W n target) = Resolved JNull
      \/ outcome (queryDataSource E W n target) = Resolved JUndefined
      \/ outcome (queryDataSource E W n target) = Pending
      \/ (exists e : JsError, stream_failure W n target e)
      \/ (exists rows : list JsVal, succeeds E W n target rows)).
Proof.
  split; [| split].
  - intros e. split; [apply outcome_rejected_inv | apply stream_failure_outcome].
  - intros rows. split; [apply outcome_rows_inv | apply succeeds_outcome].
  - unfold queryDataSource, stream_failure, succeeds.
    destruct (truthy (datasource target)); simpl; [| auto].
    destruct (dataSourceGet W (datasource target)) as [ds | e' |]; simpl;
      [| auto | auto].
    destruct (query ds (query_request (clock W n) target)) as [e' | [response | err]]
      eqn:Hquery; simpl; auto.
    + destruct (bind _ _) as [result | e'] eqn:Hrows; auto.
      do 4 right. exists result. split; [reflexivity |].
      exists ds, response. now repeat split.
    + do 3 right. left. exists err. split; [reflexivity |]. exists ds. now split.
Qed.

(** ** The assembly as a whole *)

Lemma Promise_all_resolved_inv {A : Type} (ps : list (Settled A)) :
  forall values : list A,
    Promise_all ps = Resolved values -> ps = map Resolved values.
Proof.
  induction ps as [| p ps IH]; intros values Hall.
  - now inversion Hall.
  - destruct p as [a | e |].
    + rewrite Promise_all_cons_resolved in Hall.
      destruct (Promise_all ps) as [vs | e |]; try discriminate.
      inversion Hall; subst. simpl. now rewrite (IH vs eq_refl).
    + discriminate.
    + unfold Promise_all in Hall. simpl in Hall.
      destruct (first_rejection ps); discriminate.
Qed.

Lemma Promise_all_rejected_inv {A : Type} (ps : list (Settled A)) (e : JsError) :
  Promise_all ps = Rejected e -> In (Rejected e) ps.
Proof.
  unfold Promise_all.
  destruct (first_rejection ps) as [e' |] eqn:Hfirst.
  - intros Heq. inversion Heq; subst. clear Heq.
    induction ps as [| p ps IH]; simpl in *; [discriminate |].
    destruct p as [a | e0 |]; auto.
    inversion Hfirst; subst. now left.
  - destruct (all_resolved ps); discriminate.
Qed.

Lemma map_indexed_in {A B : Type} (f : nat -> A -> B) (y : B) (xs : list A) :
  forall n : nat,
    In y (map_indexed f n xs) ->
    exists (i : nat) (x : A), nth_error xs i = Some x /\ y = f (n + i) x.
Proof.
  induction xs as [| x xs IH]; intros n Hin; simpl in Hin; [contradiction |].
  destruct Hin as [<- | Hin].
  - exists 0, x. now rewrite Nat.add_0_r.
  - destruct (IH (S n) Hin) as (i & x' & Hi & ->).
    exists (S i), x'. now rewrite Nat.add_succ_r.
Qed.

Section AssemblyBeyond.

Variable E : Engine.
Variable W : World.

Lemma panel_run_resolved_inv (n : nat) (t : Target) (entry : JsVal) :
  panel_run E W n t = Resolved entry ->
  exists r : JsVal,
    outcome (queryDataSource E W n t) = Resolved r /\ entry = panel_entry t r.
Proof.
  unfold panel_run.
  destruct (outcome (queryDataSource E W n t)) as [r | e |]; simpl;
    try discriminate.
  intros Heq. inversion Heq. now exists r.
Qed.

Lemma panel_run_rejected_inv (n : nat) (t : Target) (e : JsError) :
  panel_run E W n t = Rejected e ->
  outcome (queryDataSource E W n t) = Rejected e.
Proof.
  unfold panel_run.
  destruct (outcome (queryDataSource E W n t)) as [r | e' |]; simpl; congruence.
Qed.

Lemma assembly_resolved_inv (targets : list Target) :
  forall (n : nat) (entries : list JsVal),
    Promise_all (map_indexed (panel_run E W) n targets) = Resolved entries ->
    List.length entries = List.length targets
    /\ forall (i : nat) (t : Target),
         nth_error targets i = Some t ->
         exists r : JsVal,
           outcome (queryDataSource E W (n + i) t) = Resolved r
           /\ nth_error entries i = Some (panel_entry t r).
Proof.
  intros n entries Hall.
  apply Promise_all_resolved_inv in Hall.
  revert n entries Hall.
  induction targets as [| t targets IH]; intros n entries Hall; simpl in Hall.
  - destruct entries; [| discriminate]. split; [reflexivity |].
    intros [| i] t' Hi; discriminate.
  - destruct entries as [| entry entries]; [discriminate |].
    simpl in Hall. inversion Hall as [[Hhead Htail]].
    destruct (IH (S n) entries Htail) as (Hlen & Hnth).
    split; [simpl; now rewrite Hlen |].
    intros [| i] t' Hi; simpl in Hi.
    + inversion Hi; subst. rewrite Nat.add_0_r.
      destruct (panel_run_resolved_inv n t' entry Hhead) as (r & Hr & ->).
      now exists r.
    + rewrite Nat.add_succ_r. now apply Hnth.
Qed.

End AssemblyBeyond.

(** X11. The assembly resolves exactly when every run on a surviving
    descriptor resolves, and then with one entry per surviving descriptor, in
    their order, each made of the descriptor's title and description and of
    what its run resolved with. *)
Theorem assembly_resolves_in_order (E : Engine) (W : World)
  (dashboardData : list Target) (entries : list JsVal) :
  newPanelData E W dashboardData = Resolved entries
  <-> List.length entries = List.length (queryable dashboardData)
      /\ forall (i : nat) (t : Target),
           nth_error (queryable dashboardData) i = Some t ->
           exists r : JsVal,
             outcome (queryDataSource E W i t) = Resolved r
             /\ nth_error entries i = Some (panel_entry t r).
Proof.
  unfold newPanelData. set (targets := queryable dashboardData). split.
  - intros Hall. now apply (assembly_resolved_inv E W targets 0 entries).
  - intros [Hlen Hnth].
    rewrite (all_runs_resolved E W targets 0).
    + f_equal. apply nth_error_ext. intros i.
      rewrite map_indexed_nth. simpl.
      destruct (nth_error targets i) as [t |] eqn:Hi; simpl.
      * destruct (Hnth i t Hi) as (r & Hr & Hentry). now rewrite Hr, Hentry.
      * symmetry. apply nth_error_None. rewrite Hlen. now apply nth_error_None.
    + intros i t Hi. simpl. destruct (Hnth i t Hi) as (r & Hr & _). now exists r.
Qed.

(** X12. A first submit is rejected exactly when the stream of some surviving
    descriptor signals an error. It then changes neither transcript nor
    input and sends nothing to the completion service. *)
Theorem first_submit_fails_iff (E : Engine) (W : World) (options : Options)
  (seen : State) (dashboardData : list Target) :
  chat seen = [] ->
  fetchDashboard E W = Resolved dashboardData ->
  ((exists e : JsError, submitQuestion E W options seen = Failed e)
   <-> exists (k : nat) (t : Target) (e : JsError),
         nth_error (queryable dashboardData) k = Some t
         /\ stream_failure W k t e)
  /\ forall e : JsError,
       submitQuestion E W options seen = Failed e ->
       dispatched (submitQuestion E W options seen) = []
       /\ forall now : State,
            after_submit now (submitQuestion E W options seen) = now.
Proof.
  intros Hchat Hfetch. split.
  - split.
    + intros (e & Hfail).
      rewrite (submit_fresh E W options seen dashboardData Hchat Hfetch) in Hfail.
      destruct (newPanelData E W dashboardData) as [panelData | e' |] eqn:Hdata;
        try discriminate.
      unfold newPanelData in Hdata.
      apply Promise_all_rejected_inv in Hdata.
      apply map_indexed_in in Hdata as (k & t & Hk & Hrun).
      exists k, t, e'. split; [exact Hk |].
      apply (outcome_rejected_inv E W k t e'). simpl in Hrun.
      now apply panel_run_rejected_inv.
    + intros (k & t & e & Hk & Hstream).
      destruct (stream_failure_aborts_submit E W options seen dashboardData k t e
                  Hchat Hfetch Hk Hstream) as (e' & Hfail & _).
      now exists e'.
  - intros e Hfail. rewrite Hfail. now split.
Qed.

Lemma first_submit_fails_iff_witness :
  ((exists e : JsError,
      submitQuestion sample_engine broken_world sample_options (asking "How busy?")
      = Failed e)
   <-> exists (k : nat) (t : Target) (e : JsError),
         nth_error
           (queryable [ load_target; orders_target [ ("datasource", JStr "broken") ] ])
           k = Some t
         /\ stream_failure broken_world k t e)
  /\ forall e : JsError,
       submitQuestion sample_engine broken_world sample_options (asking "How busy?")
       = Failed e ->
       dispatched (submitQuestion sample_engine broken_world sample_options
                     (asking "How busy?")) = []
       /\ forall now : State,
            after_submit now
              (submitQuestion sample_engine broken_world sample_options
                 (asking "How busy?")) = now.
Proof.
  apply (first_submit_fails_iff sample_engine broken_world sample_options
           (asking "How busy?")
           [ load_target; orders_target [ ("datasource", JStr "broken") ] ]);
    reflexivity.
Defined.

(** ** The submit handler on a running conversation *)

(** X13. With a non-empty transcript the handler still waits for
    [fetchDashboard], whose result it does not use: it stalls, changing and
    sending nothing, exactly while the metadata request is unanswered. Once
    that request is answered, whatever the answer and whatever the data
    sources do, it sends and sets the transcript its closure captured plus
    one user message with the captured input, and clears the input: what the
    transcript and the input have become in the meantime is overwritten. *)
Theorem active_submit_from_captured (E : Engine) (W : World) (options : Options)
  (now seen : State) :
  chat seen <> [] ->
  (submitQuestion E W options seen = Stalled <-> fetchDashboard E W = Pending)
  /\ (fetchDashboard E W = Pending ->
      dispatched (submitQuestion E W options seen) = []
      /\ after_submit now (submitQuestion E W options seen) = now)
  /\ (fetchDashboard E W <> Pending ->
      dispatched (submitQuestion E W options seen)
      = [ chat seen ++ [ user_message (inputValue seen) ] ]
      /\ after_submit now (submitQuestion E W options seen)
         = {| inputValue := "";
              chat := chat seen ++ [ user_message (inputValue seen) ] |}).
Proof.
  intros Hchat. split; [| split].
  - split; [| apply submit_waits].
    intros Hstalled.
    destruct (fetchDashboard_cases E W) as [Hp | (dashboardData & Hr)];
      [exact Hp |].
    rewrite (submit_active E W options seen Hchat) in Hstalled;
      [discriminate | rewrite Hr; discriminate].
  - intros Hp. now rewrite (submit_waits E W options seen Hp).
  - intros Hsettled. now rewrite (submit_active E W options seen Hchat Hsettled).
Qed.

Lemma active_submit_from_captured_witness :
  chat started <> []
  /\ fetchDashboard sample_engine broken_world <> Pending
  /\ dispatched (submitQuestion sample_engine broken_world sample_options started)
     = [ chat started ++ [ user_message (inputValue started) ] ]
  /\ after_submit (asking "typed meanwhile")
       (submitQuestion sample_engine broken_world sample_options started)
     = {| inputValue := "";
          chat := chat started ++ [ user_message (inputValue started) ] |}.
Proof.
  assert (Hchat : chat started <> []) by discriminate.
  assert (Hsettled : fetchDashboard sample_engine broken_world <> Pending)
    by discriminate.
  split; [exact Hchat |]. split; [exact Hsettled |].
  destruct (active_submit_from_captured sample_engine broken_world sample_options
              (asking "typed meanwhile") started Hchat) as (_ & _ & Hsent).
  exact (Hsent Hsettled).
Defined.

(** X14. [fetchDashboard] never rejects. It stays unsettled exactly when the
    dashboard has an identifier and the metadata request is never answered;
    it resolves with the empty list when the dashboard has no identifier or
    the metadata request is rejected. The early-return guard of the submit
    handler is never taken. *)
Theorem dashboard_fetch_never_rejects (E : Engine) (W : World) :
  (forall e : JsError, fetchDashboard E W <> Rejected e)
  /\ (fetchDashboard E W = Pending
      <-> exists uid : string,
            dashboardUID W = Some uid /\ uid <> ""
            /\ backendGet W ("/api/dashboards/uid/" ++ uid)%string = Silent)
  /\ (dashboardUID W = None \/ dashboardUID W = Some "" ->
      fetchDashboard E W = Resolved [])
  /\ (forall (uid : string) (e : JsError),
        dashboardUID W = Some uid ->
        backendGet W ("/api/dashboards/uid/" ++ uid)%string = Rejects e ->
        fetchDashboard E W = Resolved [])
  /\ forall (options : Options) (seen : State),
       submitQuestion E W options seen <> GuardReturn.
Proof.
  split; [apply fetchDashboard_never_rejects |].
  split; [apply fetchDashboard_pending |].
  split; [apply fetchDashboard_no_uid |].
  split; [apply fetchDashboard_request_rejected |].
  intros options seen. apply guard_never_taken.
Qed.

(** ** The completion reply *)

Lemma fetchGroqData_unfolded (E : Engine) (W : World) (options : Options)
  (messages : list JsVal) :
  fetchGroqData E W options messages
  = match fetch W (completion_request E options messages) with
    | Resolves response =>
        match json response with
        | Resolves data =>
            if is_nullish data then Rejected TypeError
            else if is_nullish (get_member data "choices") then Rejected TypeError
            else if is_nullish (get_index (get_member data "choices") 0)
            then Rejected TypeError
            else Resolved (get_member (get_index (get_member data "choices") 0)
                             "message")
        | Rejects e => Rejected e
        | Silent => Pending
        end
    | Rejects e => Rejected e
    | Silent => Pending
    end.
Proof.
  unfold fetchGroqData, member, index.
  destruct (fetch W (completion_request E options messages)) as [response | e |];
    simpl; try reflexivity.
  destruct (json response) as [data | e |]; simpl; try reflexivity.
  destruct (is_nullish data); simpl; [reflexivity |].
  destruct (is_nullish (get_member data "choices")); simpl; [reflexivity |].
  now destruct (is_nullish (get_index (get_member data "choices") 0)).
Qed.

(** X15. [fetchGroqData] hands a message to the transcript exactly when the
    request and the reading of its body succeed and the body has a first
    choice; the message is that choice's [message], whatever it is. Its
    promise is rejected with a [TypeError] when the body has no [choices] or
    no first choice, and stays unsettled exactly when the request or the
    reading of the body is never answered. Whenever no message is handed over
    the transcript stays as it is. *)
Theorem completion_reply_read (E : Engine) (W : World) (options : Options)
  (messages : list JsVal) :
  (forall m : JsVal,
     fetchGroqData E W options messages = Resolved m
     <-> exists (response : HttpResponse) (data : JsVal),
           fetch W (completion_request E options messages) = Resolves response
           /\ json response = Resolves data
           /\ is_nullish data = false
           /\ is_nullish (get_member data "choices") = false
           /\ is_nullish (get_index (get_member data "choices") 0) = false
           /\ m = get_member (get_index (get_member data "choices") 0) "message")
  /\ (forall (response : HttpResponse) (data : JsVal),
        fetch W (completion_request E options messages) = Resolves response ->
        json response = Resolves data ->
        is_nullish data = true
        \/ is_nullish (get_member data "choices") = true
        \/ is_nullish (get_index (get_member data "choices") 0) = true ->
        fetchGroqData E W options messages = Rejected TypeError)
  /\ (fetchGroqData E W options messages = Pending
      <-> fetch W (completion_request E options messages) = Silent
          \/ exists response : HttpResponse,
               fetch W (completion_request E options messages) = Resolves response
               /\ json response = Silent)
  /\ forall now : State,
       (forall m : JsVal, fetchGroqData E W options messages <> Resolved m) ->
       after_reply now (fetchGroqData E W options messages) = now.
Proof.
  split; [| split; [| split]].
  - intros m. rewrite fetchGroqData_unfolded. split.
    + destruct (fetch W (completion_request E options messages))
        as [response | e |]; try discriminate.
      destruct (json response) as [data | e |] eqn:Hjson; try discriminate.
      destruct (is_nullish data) eqn:Hdata; [discriminate |].
      destruct (is_nullish (get_member data "choices")) eqn:Hchoices;
        [discriminate |].
      destruct (is_nullish (get_index (get_member data "choices") 0)) eqn:Hfirst;
        [discriminate |].
      intros Heq. inversion Heq. exists response, data. now repeat split.
    + intros (response & data & -> & -> & -> & -> & -> & ->). reflexivity.
  - intros response data Hfetch Hjson Hbad.
    rewrite fetchGroqData_unfolded, Hfetch, Hjson.
    destruct (is_nullish data); [reflexivity |].
    destruct (is_nullish (get_member data "choices")); [reflexivity |].
    destruct Hbad as [H | [H | H]]; try discriminate. now rewrite H.
  - rewrite fetchGroqData_unfolded. split.
    + destruct (fetch W (completion_request E options messages))
        as [response | e |]; try discriminate; [| now left].
      destruct (json response) as [data | e |] eqn:Hjson; try discriminate.
      * destruct (is_nullish data); [discriminate |].
        destruct (is_nullish (get_member data "choices")); [discriminate |].
        destruct (is_nullish (get_index (get_member data "choices") 0));
          discriminate.
      * intros _. right. now exists response.
    + intros [-> | (response & -> & ->)]; reflexivity.
  - intros now Hnone.
    destruct (fetchGroqData E W options messages) as [m | e |] eqn:Hreply;
      simpl; try reflexivity.
    now destruct (Hnone m).
Qed.

(** ** The drawn thread *)

Lemma draw_object (index : nat) (msg : JsVal) :
  is_nullish msg = false -> draw index msg = Returned (drawn index msg).
Proof.
  intros Hmsg. unfold draw, member. now rewrite Hmsg.
Qed.

Lemma draw_nullish (index : nat) (msg : JsVal) :
  is_nullish msg = true -> draw index msg = Threw TypeError.
Proof.
  intros Hmsg. unfold draw, member. now rewrite Hmsg.
Qed.

Lemma draw_all_objects (msgs : list JsVal) :
  Forall (fun msg => is_nullish msg = false) msgs ->
  forall index : nat,
    map_with_index draw index msgs = Returned (map_indexed drawn index msgs).
Proof.
  induction 1 as [| msg msgs Hmsg _ IH]; intros index; simpl.
  - reflexivity.
  - rewrite (draw_object index msg Hmsg). simpl. now rewrite IH.
Qed.

Lemma draw_some_nullish (msgs : list JsVal) :
  Exists (fun msg => is_nullish msg = true) msgs ->
  forall index : nat, map_with_index draw index msgs = Threw TypeError.
Proof.
  induction msgs as [| msg msgs IH]; intros Hex index; simpl.
  - inversion Hex.
  - destruct (is_nullish msg) eqn:Hmsg.
    + now rewrite (draw_nullish index msg Hmsg).
    + rewrite (draw_object index msg Hmsg). simpl.
      rewrite IH; [reflexivity |].
      inversion Hex as [x l Hx | x l Hl]; subst; [congruence | exact Hl].
Qed.

Lemma nullish_or_not (msgs : list JsVal) :
  Forall (fun msg => is_nullish msg = false) msgs
  \/ Exists (fun msg => is_nullish msg = true) msgs.
Proof.
  induction msgs as [| msg msgs [IH | IH]]; auto.
  destruct (is_nullish msg) eqn:Hmsg; auto.
Qed.

Lemma thread_raises (transcript : list JsVal) (msg : JsVal) :
  In msg (rendered transcript) ->
  is_nullish msg = true ->
  thread transcript = Threw TypeError.
Proof.
  intros Hin Hmsg. unfold thread. apply draw_some_nullish.
  apply Exists_exists. now exists msg.
Qed.

(** X16. Drawing the thread raises exactly when a message after element 0
    is [null] or [undefined], and then a [TypeError]. Otherwise there is one
    bubble per message after element 0, keyed 0, 1, ... in order, showing the
    message's [content]; it is right-aligned, blue and white when the
    message's [role] is the string ["user"], and left-aligned, grey and black
    for every other role. *)
Theorem thread_drawn (transcript : list JsVal) :
  ((exists e : JsError, thread transcript = Threw e)
   <-> exists msg : JsVal, In msg (rendered transcript) /\ is_nullish msg = true)
  /\ (forall e : JsError, thread transcript = Threw e -> e = TypeError)
  /\ forall bubbles : list View.bubble,
       thread transcript = Returned bubbles ->
       List.length bubbles = List.length transcript - 1
       /\ forall (i : nat) (msg : JsVal),
            nth_error (rendered transcript) i = Some msg ->
            exists b : View.bubble,
              nth_error bubbles i = Some b
              /\ View.key b = i
              /\ View.content b = get_member msg "content"
              /\ (get_member msg "role" = JStr "user" ->
                  View.textAlign b = "right"
                  /\ View.background b = "#007bff" /\ View.color b = "white")
              /\ (get_member msg "role" <> JStr "user" ->
                  View.textAlign b = "left"
                  /\ View.background b = "#ccc" /\ View.color b = "black").
Proof.
  unfold thread.
  destruct (nullish_or_not (rendered transcript)) as [Hall | Hsome].
  - rewrite (draw_all_objects _ Hall 0). split; [| split].
    + split; [intros (e & He); discriminate |].
      intros (msg & Hin & Hmsg). rewrite Forall_forall in Hall.
      rewrite (Hall msg Hin) in Hmsg. discriminate.
    + discriminate.
    + intros bubbles Heq. inversion Heq; subst. split.
      * rewrite map_indexed_length. unfold rendered. rewrite length_skipn. lia.
      * intros i msg Hi. exists (drawn i msg).
        rewrite map_indexed_nth, Hi. simpl. repeat split; try reflexivity.
        -- now rewrite H.
        -- now rewrite H.
        -- now rewrite H.
        -- destruct (get_member msg "role") as [| | | | s | |]; try reflexivity.
           simpl. destruct (String.eqb_spec s "user"); [congruence | reflexivity].
        -- destruct (get_member msg "role") as [| | | | s | |]; try reflexivity.
           simpl. destruct (String.eqb_spec s "user"); [congruence | reflexivity].
        -- destruct (get_member msg "role") as [| | | | s | |]; try reflexivity.
           simpl. destruct (String.eqb_spec s "user"); [congruence | reflexivity].
  - rewrite (draw_some_nullish _ Hsome 0). split; [| split].
    + split; [intros _; now apply Exists_exists | intros _; now exists TypeError].
    + intros e Heq. now inversion Heq.
    + discriminate.
Qed.

(** ** How every conversation opens *)

Section OpeningFacts.

Variable E : Engine.

Lemma opened_app (transcript more : list JsVal) :
  opened E transcript -> opened E (transcript ++ more).
Proof.
  intros (sys & question & rest & -> & Hsys).
  now exists sys, question, (rest ++ more).
Qed.

Lemma submit_opened (W : World) (options : Options) (seen : State)
  (messages : list JsVal) :
  chat seen = [] \/ opened E (chat seen) ->
  submitQuestion E W options seen = Dispatched messages ->
  opened E messages.
Proof.
  intros Hseen Hsubmit.
  apply submit_dispatched_inv in Hsubmit
    as [(Hchat & dashboardData & panelData & _ & _ & ->) | (Hchat & ->)].
  - exists (system_message E options panelData), (inputValue seen), [].
    split; [reflexivity | now exists options, panelData].
  - apply opened_app.
    destruct Hseen as [Hnil | Hopen]; [contradiction | exact Hopen].
Qed.

Lemma opening_step (p q : Panel) :
  invariant E p -> opening E p -> step E p q -> opening E q.
Proof.
  intros (_ & _ & _ & Hawait) [Hui Hhandlers] Hstep.
  destruct Hstep as
    [ p text
    | p
    | p W options earlier later seen Hsplit
    | p W options earlier later messages Hsplit ]; unfold opening; simpl.
  - now split.
  - split; [exact Hui |]. apply Forall_app. split; [exact Hhandlers | now constructor].
  - rewrite Hsplit in Hhandlers. apply Forall_app in Hhandlers as [Hearlier Hrest].
    inversion Hrest as [| x l Hseen Hlater]; subst.
    split; [| apply Forall_app; now split].
    destruct (submitQuestion E W options seen) as [| sent_now | e |] eqn:Hsubmit;
      simpl; auto.
    right. now apply (submit_opened W options seen).
  - split; [| exact Hhandlers].
    destruct (fetchGroqData E W options messages) as [reply | e |]; simpl; auto.
    right. apply opened_app.
    destruct Hui as [Hnil | Hopen]; [| exact Hopen].
    exfalso. apply Hawait; [| exact Hnil]. rewrite Hsplit. now destruct earlier.
Qed.

Lemma opening_reachable (p : Panel) : reachable E p -> opening E p.
Proof.
  induction 1 as [| p q Hreach IH Hstep].
  - split; [now left | constructor].
  - apply (opening_step p q); auto. now apply invariant_reachable.
Qed.

End OpeningFacts.

(** X17. In every state the panel can reach, a non-empty transcript opens
    with a synthesized system message followed by a user message: it has at
    least two elements, and the first thing drawn is a user's question,
    whatever way submits and replies have interleaved. *)
Theorem transcript_opens_with_question (E : Engine) (p : Panel) :
  reachable E p ->
  chat (ui p) <> [] ->
  exists (sys : JsVal) (question : string) (rest : list JsVal),
    chat (ui p) = sys :: user_message question :: rest
    /\ synthesized E sys
    /\ 2 <= List.length (chat (ui p))
    /\ nth_error (rendered (chat (ui p))) 0 = Some (user_message question).
Proof.
  intros Hreach Hne.
  destruct (opening_reachable E p Hreach) as [[Hnil | Hopen] _];
    [contradiction |].
  destruct Hopen as (sys & question & rest & Heq & Hsys).
  exists sys, question, rest. rewrite Heq. simpl.
  repeat split; auto. lia.
Qed.

Lemma transcript_opens_with_question_witness :
  exists (sys : JsVal) (question : string) (rest : list JsVal),
    chat (ui answered_panel) = sys :: user_message question :: rest
    /\ synthesized sample_engine sys
    /\ 2 <= List.length (chat (ui answered_panel))
    /\ nth_error (rendered (chat (ui answered_panel))) 0
       = Some (user_message question).
Proof.
  apply (transcript_opens_with_question sample_engine answered_panel).
  - exact answered_panel_reachable.
  - discriminate.
Defined.

(** X18. A reply whose first choice has no [message] is appended all the
    same, as [undefined]; from then on drawing the thread raises a
    [TypeError]. *)
Theorem hollow_reply_breaks_thread (E : Engine) (W : World) (options : Options)
  (messages : list JsVal) (now : State) (m : JsVal) :
  fetchGroqData E W options messages = Resolved m ->
  is_nullish m = true ->
  chat now <> [] ->
  chat (after_reply now (fetchGroqData E W options messages)) = chat now ++ [m]
  /\ thread (chat (after_reply now (fetchGroqData E W options messages)))
     = Threw TypeError.
Proof.
  intros Hreply Hm Hne. rewrite Hreply. simpl. split; [reflexivity |].
  apply (thread_raises _ m); [| exact Hm].
  unfold rendered. destruct (chat now) as [| first rest]; [contradiction |].
  simpl. apply in_or_app. right. now left.
Qed.

Lemma hollow_reply_breaks_thread_witness :
  chat (after_reply started
          (fetchGroqData sample_engine (world_with [] (Resolves hollow_reply))
             sample_options (chat started)))
  = chat started ++ [JUndefined]
  /\ thread (chat (after_reply started
                     (fetchGroqData sample_engine
                        (world_with [] (Resolves hollow_reply))
                        sample_options (chat started))))
     = Threw TypeError.
Proof.
  apply (hollow_reply_breaks_thread sample_engine
           (world_with [] (Resolves hollow_reply)) sample_options
           (chat started) started JUndefined).
  - reflexivity.
  - reflexivity.
  - discriminate.
Defined.

(** The error body of the completion service has no [choices]: nothing is
    appended. *)
Example error_body_appends_nothing :
  fetchGroqData sample_engine (world_with [] (Resolves error_reply)) sample_options
    (chat started) = Rejected TypeError
  /\ after_reply started
       (fetchGroqData sample_engine (world_with [] (Resolves error_reply))
          sample_options (chat started)) = started.
Proof.
  split; reflexivity.
Qed.

(** ** Growth of the transcript *)

Lemma append_one_longer {A : Type} (xs : list A) (x : A) : xs <> xs ++ [x].
Proof.
  intros Heq. apply (f_equal (@List.length A)) in Heq.
  rewrite length_app in Heq. simpl in Heq. lia.
Qed.

(** X19. As long as every suspended handler captured the transcript that is
    current, a step only appends to the transcript, and what it appends is
    fixed by the kind of step. A step that neither dispatches a request nor
    takes a reply (typing, pressing send, a handler that fails or stalls)
    appends nothing. A handler that dispatches appends, on an empty
    transcript, a synthesized system message and the user message with the
    input it captured, and on a non-empty transcript that user message alone;
    the transcript it sets is the message list it sends. A reply appends the
    one message [fetchGroqData] resolves with, and nothing when that promise
    rejects or stays unsettled. *)
Theorem transcript_append_only (E : Engine) (p q : Panel) :
  step E p q ->
  Forall (fun seen => chat seen = chat (ui p)) (handlers p) ->
  exists more : list JsVal,
    chat (ui q) = chat (ui p) ++ more
    /\ (sent q = sent p ->
        List.length (awaiting p) <= List.length (awaiting q) ->
        more = [])
    /\ (forall messages : list JsVal,
          sent q = sent p ++ [messages] ->
          chat (ui q) = messages
          /\ exists seen : State,
               In seen (handlers p)
               /\ (chat (ui p) = [] ->
                   exists (options : Options) (panelData : list JsVal),
                     more = [ system_message E options panelData;
                              user_message (inputValue seen) ])
               /\ (chat (ui p) <> [] -> more = [ user_message (inputValue seen) ]))
    /\ (List.length (awaiting q) < List.length (awaiting p) ->
        exists (W : World) (options : Options) (messages : list JsVal),
          In messages (awaiting p)
          /\ more = match fetchGroqData E W options messages with
                    | Resolved messageResponse => [messageResponse]
                    | _ => []
                    end).
Proof.
  intros Hstep Hfresh.
  destruct Hstep as
    [ p text
    | p
    | p W options earlier later seen Hsplit
    | p W options earlier later messages Hsplit ]; simpl.
  - exists []. split; [now rewrite app_nil_r |].
    split; [reflexivity |]. split; [| lia].
    intros messages Hsent. now destruct (append_one_longer (sent p) messages).
  - exists []. split; [now rewrite app_nil_r |].
    split; [reflexivity |]. split; [| lia].
    intros messages Hsent. now destruct (append_one_longer (sent p) messages).
  - assert (Hin : In seen (handlers p))
      by (rewrite Hsplit; apply in_or_app; right; now left).
    rewrite Forall_forall in Hfresh. pose proof (Hfresh seen Hin) as Hseen.
    destruct (submitQuestion E W options seen) as [| sent_now | e |] eqn:Hsubmit;
      simpl.
    + exists []. rewrite !app_nil_r. split; [reflexivity |].
      split; [reflexivity |]. split; [| lia].
      intros messages Hsent. now destruct (append_one_longer (sent p) messages).
    + apply submit_dispatched_inv in Hsubmit
        as [(Hchat & dashboardData & panelData & _ & _ & ->) | (Hchat & ->)].
      * exists [ system_message E options panelData; user_message (inputValue seen) ].
        rewrite <- Hseen, Hchat. split; [reflexivity |].
        split; [intros Hsent; symmetry in Hsent; now apply append_one_longer in Hsent |].
        split; [| rewrite length_app; simpl; lia].
        intros messages Hsent. apply app_inv_head in Hsent.
        inversion Hsent; subst messages. split; [reflexivity |].
        exists seen. split; [exact Hin |].
        split; [intros _; now exists options, panelData | now intros Hne].
      * exists [ user_message (inputValue seen) ].
        rewrite <- Hseen. split; [reflexivity |].
        split; [intros Hsent; symmetry in Hsent; now apply append_one_longer in Hsent |].
        split; [| rewrite length_app; simpl; lia].
        intros messages Hsent. apply app_inv_head in Hsent.
        inversion Hsent; subst messages. split; [reflexivity |].
        exists seen. split; [exact Hin |].
        split; [intros Hnil; contradiction | reflexivity].
    + exists []. rewrite !app_nil_r. split; [reflexivity |].
      split; [reflexivity |]. split; [| lia].
      intros messages Hsent. now destruct (append_one_longer (sent p) messages).
    + exists []. rewrite !app_nil_r. split; [reflexivity |].
      split; [reflexivity |]. split; [| lia].
      intros messages Hsent. now destruct (append_one_longer (sent p) messages).
  - exists (match fetchGroqData E W options messages with
            | Resolved messageResponse => [messageResponse]
            | _ => []
            end).
    split; [destruct (fetchGroqData E W options messages); simpl;
            now rewrite ?app_nil_r |].
    split; [intros _; rewrite Hsplit, !length_app; simpl; lia |].
    split; [intros sent_now Hsent; now destruct (append_one_longer (sent p) sent_now) |].
    intros _. exists W, options, messages. split; [| reflexivity].
    rewrite Hsplit. apply in_or_app. right. now left.
Qed.

Lemma transcript_append_only_witness :
  exists more : list JsVal,
    chat (ui answered_panel) = chat (ui clicked_panel) ++ more
    /\ (sent answered_panel = sent clicked_panel ->
        List.length (awaiting clicked_panel) <= List.length (awaiting answered_panel) ->
        more = [])
    /\ (forall messages : list JsVal,
          sent answered_panel = sent clicked_panel ++ [messages] ->
          chat (ui answered_panel) = messages
          /\ exists seen : State,
               In seen (handlers clicked_panel)
               /\ (chat (ui clicked_panel) = [] ->
                   exists (options : Options) (panelData : list JsVal),
                     more = [ system_message sample_engine options panelData;
                              user_message (inputValue seen) ])
               /\ (chat (ui clicked_panel) <> [] ->
                   more = [ user_message (inputValue seen) ]))
    /\ (List.length (awaiting answered_panel) < List.length (awaiting clicked_panel) ->
        exists (W : World) (options : Options) (messages : list JsVal),
          In messages (awaiting clicked_panel)
          /\ more = match fetchGroqData sample_engine W options messages with
                    | Resolved messageResponse => [messageResponse]
                    | _ => []
                    end).
Proof.
  apply (transcript_append_only sample_engine clicked_panel answered_panel).
  - apply (step_submit sample_engine clicked_panel mixed_world sample_options
             [] [] (asking "How busy?")).
    reflexivity.
  - repeat constructor.
Defined.

(** ** Queries of one assembly *)



